(** * The LM Studio web plugin: the [Search] and [Visit] tools

    A shallow embedding of the final revision of [toolsProvider] (the two
    [implementation] closures), together with the parts of the JavaScript
    run time they rely on: UTF-16 strings, [String.prototype.slice],
    [String.prototype.trim], global [replace] with a regular expression,
    [Array.prototype.slice], [URLSearchParams] serialisation, property
    access on parsed JSON.  The network, the JSON parser, the URL parser
    and the readability extraction are the handlers' environment. *)

From Stdlib Require Import List NArith ZArith String Ascii Bool Lia DecimalString.
Import ListNotations.

Set Implicit Arguments.
Set Warnings "-register-all".

(** ** [slice(0, e)] on strings and arrays

    The end index used on a sequence of length [len]: a negative [e]
    counts from the end, and the result is clamped to [0 .. len]. *)

Definition slice_end (len : nat) (e : Z) : nat :=
  if (e <? 0)%Z then Z.to_nat (Z.max (Z.of_nat len + e) 0)
  else Nat.min (Z.to_nat e) len.

(** [a.slice(0, e)] on an array. *)
Definition Array_slice0 (A : Type) (e : Z) (a : list A) : list A :=
  firstn (slice_end (List.length a) e) a.

(** ** JavaScript strings: sequences of UTF-16 code units *)

Module JsString.

Definition t := list N.

(** A source literal (all literals of the plugin are ASCII). *)
Definition lit (s : string) : t :=
  map N_of_ascii (list_ascii_of_string s).

Fixpoint eqb (a b : t) : bool :=
  match a, b with
  | [], [] => true
  | x :: a', y :: b' => N.eqb x y && eqb a' b'
  | _, _ => false
  end.

(** [s.length] *)
Definition length (s : t) : Z := Z.of_nat (List.length s).

(** [WhiteSpace] and [LineTerminator] code points of ECMAScript: what
    [\s] matches and what [trim] strips. *)
Definition is_whitespace (c : N) : bool :=
  (N.eqb c 9 || N.eqb c 10 || N.eqb c 11 || N.eqb c 12 || N.eqb c 13
   || N.eqb c 32 || N.eqb c 160 || N.eqb c 5760
   || (N.leb 8192 c && N.leb c 8202)
   || N.eqb c 8232 || N.eqb c 8233 || N.eqb c 8239 || N.eqb c 8287
   || N.eqb c 12288 || N.eqb c 65279)%bool.

Definition is_newline (c : N) : bool := N.eqb c 10.

(** The class [[ \t]]. *)
Definition is_space_or_tab (c : N) : bool := (N.eqb c 32 || N.eqb c 9)%bool.

Fixpoint drop_while (p : N -> bool) (s : t) : t :=
  match s with
  | [] => []
  | c :: s' => if p c then drop_while p s' else s
  end.

(** [s.trim()] *)
Definition trim (s : t) : t :=
  rev (drop_while is_whitespace (rev (drop_while is_whitespace s))).

(** [s.slice(0, e)] *)
Definition slice0 (e : Z) (s : t) : t :=
  firstn (slice_end (List.length s) e) s.

Fixpoint starts_with (p s : t) : bool :=
  match p, s with
  | [], _ => true
  | x :: p', y :: s' => N.eqb x y && starts_with p' s'
  | _ :: _, [] => false
  end.

(** [s.includes(p)] *)
Fixpoint includes (p s : t) : bool :=
  starts_with p s ||
  match s with
  | [] => false
  | _ :: s' => includes p s'
  end.

End JsString.

Definition jsstring : Type := JsString.t.

Definition js (s : string) : jsstring := JsString.lit s.
Arguments js s%_string.

(** ** Regular expressions

    The two expressions of the plugin, [/\n\s*\n/g] and [/[ \t]+/g], are
    sequences of character classes with a quantifier each.  [match_len]
    is the backtracking matcher of ECMAScript restricted to such
    sequences: quantifiers are greedy and give characters back one at a
    time when the rest of the pattern fails. *)

Module RegExp.

Inductive quantifier := One | Star | Plus.

Record atom := Atom { cls : N -> bool; quant : quantifier }.

Definition pattern := list atom.

(** Greedy [c*] followed by the continuation [k]: the length matched. *)
Fixpoint star (c : N -> bool) (k : jsstring -> option nat) (s : jsstring)
  : option nat :=
  match s with
  | x :: s' =>
      if c x then
        match star c k s' with
        | Some n => Some (S n)
        | None => k s
        end
      else k s
  | [] => k s
  end.

(** Length of the match of [p] anchored at the start of [s]. *)
Fixpoint match_len (p : pattern) : jsstring -> option nat :=
  match p with
  | [] => fun _ => Some 0
  | a :: p' =>
      let k := match_len p' in
      match quant a with
      | One => fun s =>
          match s with
          | x :: s' => if cls a x then option_map S (k s') else None
          | [] => None
          end
      | Star => star (cls a) k
      | Plus => fun s =>
          match s with
          | x :: s' =>
              if cls a x then option_map S (star (cls a) k s') else None
          | [] => None
          end
      end
  end.

(** [s.replace(/p/g, r)]: scan left to right; at every position that
    is not inside the previous match try the pattern, replace a match
    by [r] and go on after it.  [skip] counts the code units of the
    current match still to pass over.  (After an empty match the scan
    moves one code unit forward, copying it.) *)
Fixpoint replace_from (p : pattern) (r : jsstring) (skip : nat)
    (s : jsstring) : jsstring :=
  match s with
  | [] =>
      match skip, match_len p [] with
      | 0, Some _ => r
      | _, _ => []
      end
  | x :: s' =>
      match skip with
      | S k => replace_from p r k s'
      | 0 =>
          match match_len p s with
          | Some (S n) => r ++ replace_from p r n s'
          | Some 0 => r ++ x :: replace_from p r 0 s'
          | None => x :: replace_from p r 0 s'
          end
      end
  end.

Definition replace_all (p : pattern) (r s : jsstring) : jsstring :=
  replace_from p r 0 s.

(** [/\n\s*\n/] *)
Definition blank_lines : pattern :=
  [ Atom JsString.is_newline One;
    Atom JsString.is_whitespace Star;
    Atom JsString.is_newline One ].

(** [/[ \t]+/] *)
Definition spaces_or_tabs : pattern :=
  [ Atom JsString.is_space_or_tab Plus ].

End RegExp.

(** ** [URL] and [URLSearchParams]

    What the handler uses of the URL Standard: the list of name-value
    pairs behind [url.searchParams], its application/x-www-form-urlencoded
    serialisation, and the serialisation of the URL itself. *)

Module Url.

Definition is_high_surrogate (c : N) : bool := (N.leb 55296 c && N.leb c 56319)%bool.
Definition is_low_surrogate (c : N) : bool := (N.leb 56320 c && N.leb c 57343)%bool.

(** Conversion to a scalar value string: surrogate pairs are combined,
    lone surrogates become U+FFFD. *)
Fixpoint scalar_values (s : jsstring) : list N :=
  match s with
  | [] => []
  | c :: s' =>
      if is_high_surrogate c then
        match s' with
        | d :: s'' =>
            if is_low_surrogate d
            then (65536 + (c - 55296) * 1024 + (d - 56320))%N :: scalar_values s''
            else 65533%N :: scalar_values s'
        | [] => [65533%N]
        end
      else if is_low_surrogate c then 65533%N :: scalar_values s'
      else c :: scalar_values s'
  end.

Definition utf8_encode (cp : N) : list N :=
  (if cp <? 128 then [cp]
   else if cp <? 2048 then [192 + cp / 64; 128 + cp mod 64]
   else if cp <? 65536 then
     [224 + cp / 4096; 128 + (cp / 64) mod 64; 128 + cp mod 64]
   else
     [240 + cp / 262144; 128 + (cp / 4096) mod 64;
      128 + (cp / 64) mod 64; 128 + cp mod 64])%N.

Definition hex_digit (n : N) : N :=
  (if n <? 10 then 48 + n else 55 + n)%N.

Definition is_ascii_alphanumeric (b : N) : bool :=
  ((N.leb 48 b && N.leb b 57) || (N.leb 65 b && N.leb b 90)
   || (N.leb 97 b && N.leb b 122))%bool.

(** One byte under the application/x-www-form-urlencoded percent-encode
    set, with spaces written as [+]. *)
Definition urlencoded_byte (b : N) : jsstring :=
  if N.eqb b 32 then [43%N]
  else if (is_ascii_alphanumeric b
           || N.eqb b 42 || N.eqb b 45 || N.eqb b 46 || N.eqb b 95)%bool
  then [b]
  else [37%N; hex_digit (b / 16); hex_digit (b mod 16)].

Definition urlencoded_string (s : jsstring) : jsstring :=
  flat_map urlencoded_byte (flat_map utf8_encode (scalar_values s)).

Fixpoint urlencoded_serialize (ps : list (jsstring * jsstring)) : jsstring :=
  match ps with
  | [] => []
  | [(n, v)] => urlencoded_string n ++ 61%N :: urlencoded_string v
  | (n, v) :: ps' =>
      urlencoded_string n ++ 61%N :: urlencoded_string v
        ++ 38%N :: urlencoded_serialize ps'
  end.

(** A parsed URL: its serialisation up to the query, the query, the
    list of [searchParams], and the fragment. *)
Record t := Make {
  head : jsstring;
  query : option jsstring;
  params : list (jsstring * jsstring);
  fragment : option jsstring
}.

(** [url.searchParams.append(n, v)]: the pair goes to the end of the
    list and the URL's query becomes the list's serialisation. *)
Definition append (n v : jsstring) (u : t) : t :=
  let ps := params u ++ [(n, v)] in
  let q := urlencoded_serialize ps in
  {| head := head u;
     query := match q with [] => None | _ => Some q end;
     params := ps;
     fragment := fragment u |}.

(** [url.toString()] *)
Definition toString (u : t) : jsstring :=
  head u
  ++ match query u with Some q => 63%N :: q | None => [] end
  ++ match fragment u with Some f => 35%N :: f | None => [] end.

End Url.

(** ** Parsed JSON and property access *)

Module Json.

Section Values.

(** The JSON numbers are never inspected by the plugin. *)
Variable number : Type.

Inductive t :=
| Null
| Bool (b : bool)
| Num (n : number)
| Str (s : jsstring)
| Arr (items : list t)
| Obj (fields : list (jsstring * t)).

Fixpoint lookup (k : jsstring) (fields : list (jsstring * t)) : option t :=
  match fields with
  | [] => None
  | (k', v) :: fields' =>
      if JsString.eqb k k' then Some v else lookup k fields'
  end.

End Values.

Arguments Null {number}.
Arguments Bool {number} b.
Arguments Str {number} s.
Arguments Arr {number} items.
Arguments Obj {number} fields.

End Json.

(** ** Effects: what a handler does and how it ends

    A handler run yields the sequence of its interactions with the host
    and the network, and either a returned value or an exception it did
    not catch (neither handler has a [try]). *)

Inductive JsError := TypeError | SyntaxError.

Inductive Event :=
| ConsoleLog (line : jsstring)
| Fetch (url : jsstring)
| ReadJson (body : jsstring)
| ReadText (body : jsstring)
| ParseDocument (html : jsstring).

Definition M (A : Type) : Type := (list Event * (JsError + A))%type.

Definition ret (A : Type) (a : A) : M A := ([], inr a).
Definition throw (A : Type) (e : JsError) : M A := ([], inl e).
Definition emit (ev : Event) : M unit := ([ev], inr tt).

Definition bind (A B : Type) (m : M A) (f : A -> M B) : M B :=
  match m with
  | (tr, inl e) => (tr, inl e)
  | (tr, inr a) => let (tr', r) := f a in (tr ++ tr', r)
  end.

Notation "x <- m ;; k" := (bind m (fun x => k))
  (at level 61, m at next level, right associativity).
Notation "m ;;; k" := (bind m (fun _ => k))
  (at level 61, right associativity).

(** A nullish environment answer ([None]) raised as [e]. *)
Definition or_throw (A : Type) (e : JsError) (o : option A) : M A :=
  match o with
  | Some a => ret a
  | None => throw A e
  end.

Fixpoint mapM (A B : Type) (f : A -> M B) (l : list A) : M (list B) :=
  match l with
  | [] => ret []
  | a :: l' => b <- f a ;; bs <- mapM f l' ;; ret (b :: bs)
  end.

Definition trace (A : Type) (m : M A) : list Event := fst m.
Definition result (A : Type) (m : M A) : JsError + A := snd m.

(** ** The plugin *)

(** [number.toString()] of an integer. *)
Definition Number_toString (n : Z) : jsstring :=
  js (DecimalString.NilZero.string_of_int (Z.to_int n)).

(** [a.join(",")] on an array of strings. *)
Fixpoint join_comma (a : list jsstring) : jsstring :=
  match a with
  | [] => []
  | [s] => s
  | s :: a' => s ++ 44%N :: join_comma a'
  end.

(** The values of [configSchema]'s fields; the two numeric fields are
    sliders over integers. *)
Record Config := {
  search_baseURL : jsstring;
  search_maxResults : Z;
  search_engines : list jsstring;
  search_safeSearch : jsstring;
  search_language : jsstring;
  visit_forceRaw : bool;
  visit_maxContentLength : Z
}.

(** What the handlers read of a [Response]. *)
Record Response := {
  status : Z;
  statusText : jsstring;
  body : jsstring
}.

(** [response.ok]: the status is in the range 200 to 299. *)
Definition ok (r : Response) : bool :=
  ((200 <=? status r) && (status r <=? 299))%Z.

(** What the handler reads of the object [Readability.parse] returns;
    every field may be null or undefined ([None]). *)
Record Article := {
  art_title : option jsstring;
  art_textContent : option jsstring;
  art_excerpt : option jsstring;
  art_byline : option jsstring;
  art_siteName : option jsstring;
  art_lang : option jsstring;
  art_publishedTime : option jsstring
}.

(** The object [Visit] returns after an extraction. *)
Record VisitArticle := {
  title : option jsstring;
  content : jsstring;
  excerpt : option jsstring;
  byline : option jsstring;
  siteName : option jsstring;
  lang : option jsstring;
  publishedTime : option jsstring
}.

Inductive VisitOutput :=
| VisitText (s : jsstring)
| VisitObject (a : VisitArticle).

Definition truncation_marker : jsstring :=
  js "...Text truncated due to length limit".

Definition extraction_failure : jsstring :=
  js "Failed to extract readable content.".

Definition request_failure (r : Response) : jsstring :=
  js "Failed to make request: " ++ statusText r.

(** The safe-search number of the final revision. *)
Definition safeSearch (safeSearchValue : jsstring) : Z :=
  if JsString.eqb safeSearchValue (js "Moderate") then 1
  else if JsString.eqb safeSearchValue (js "Strict") then 0
  else 2.

(** The five [url.searchParams.append] calls of [Search], on the URL
    made from the configured base. *)
Definition searchURL (cfg : Config) (query : jsstring) (url : Url.t) : Url.t :=
  let safe := safeSearch (search_safeSearch cfg) in
  let url := Url.append (js "q") query url in
  let url := Url.append (js "engines") (join_comma (search_engines cfg)) url in
  let url := Url.append (js "language") (search_language cfg) url in
  let url := Url.append (js "format") (js "json") url in
  Url.append (js "safesearch") (Number_toString safe) url.

(** [article.textContent], or the empty string when it is nullish,
    through [.replace(/\n\s*\n/g, "\n")], [.replace(/[ \t]+/g, " ")]
    and [.trim()]. *)
Definition cleanText (textContent : option jsstring) : jsstring :=
  JsString.trim
    (RegExp.replace_all RegExp.spaces_or_tabs (js " ")
       (RegExp.replace_all RegExp.blank_lines [10%N]
          (match textContent with Some s => s | None => js "" end))).

(** The [if (maxContentLength > 0 && cleanText.length > maxContentLength)]
    block. *)
Definition limitText (maxContentLength : Z) (text : jsstring) : jsstring :=
  if ((maxContentLength >? 0)
      && (JsString.length text >? maxContentLength))%Z
  then JsString.slice0 maxContentLength text ++ truncation_marker
  else text.

Section Handlers.

Variable number : Type.

Definition json : Type := Json.t number.

(** A JavaScript value read off parsed JSON; [None] is [undefined]. *)
Definition value : Type := option json.

(** One element of the [results] array [Search] returns. *)
Record SearchResult := {
  res_title : value;
  res_summary : value;
  res_url : value
}.

Inductive SearchOutput :=
| SearchText (s : jsstring)
| SearchObject (results : list SearchResult).

(** The handlers' environment: the plugin configuration the host
    holds, and the answers of the network and of the libraries.
    [None] stands for a rejected [fetch], a body [JSON.parse] refuses,
    a string [new URL] refuses, and a [null] from [Readability.parse]. *)
Record World := {
  config : Config;
  net : jsstring -> option Response;
  JSON_parse : jsstring -> option json;
  URL_parse : jsstring -> option Url.t;
  Readability_parse : jsstring -> option Article
}.

Variable w : World.

Definition new_URL (s : jsstring) : M Url.t :=
  or_throw TypeError (URL_parse w s).

Definition fetch (url : jsstring) : M Response :=
  emit (Fetch url) ;;; or_throw TypeError (net w url).

(** [await response.json()] *)
Definition response_json (r : Response) : M json :=
  emit (ReadJson (body r)) ;;; or_throw SyntaxError (JSON_parse w (body r)).

(** [await response.text()] *)
Definition response_text (r : Response) : M jsstring :=
  emit (ReadText (body r)) ;;; ret (body r).

(** [new Readability(new JSDOM(html).window.document).parse()] *)
Definition readability (html : jsstring) : M (option Article) :=
  emit (ParseDocument html) ;;; ret (Readability_parse w html).

(** [v.k] for a key that no prototype defines: reading a property of
    [null] or [undefined] throws, an object gives its own field, any
    other value gives [undefined]. *)
Definition get (v : value) (k : jsstring) : M value :=
  match v with
  | None => throw value TypeError
  | Some Json.Null => throw value TypeError
  | Some (Json.Obj fields) => ret (Json.lookup k fields)
  | Some _ => ret None
  end.

(** [v.map(f)]: only an array has a callable [map]. *)
Definition Array_map (B : Type) (f : value -> M B) (v : value) : M (list B) :=
  match v with
  | Some (Json.Arr items) => mapM f (map (@Some json) items)
  | _ => throw (list B) TypeError
  end.

(** The callback of [map]: [{ title: r.title, summary: r.content,
    url: r.url }]. *)
Definition toResult (r : value) : M SearchResult :=
  t <- get r (js "title") ;;
  s <- get r (js "content") ;;
  u <- get r (js "url") ;;
  ret {| res_title := t; res_summary := s; res_url := u |}.

(** The [Search] tool's [implementation]. *)
Definition Search (query : jsstring) : M SearchOutput :=
  let cfg := config w in
  url <- new_URL (search_baseURL cfg) ;;
  let url := searchURL cfg query url in
  emit (ConsoleLog (Url.toString url)) ;;;
  response <- fetch (Url.toString url) ;;
  if negb (ok response) then
    ret (SearchText (request_failure response))
  else
    data <- response_json response ;;
    results <- get (Some data) (js "results") ;;
    mapped <- Array_map toResult results ;;
    let filteredResults := Array_slice0 (search_maxResults cfg) mapped in
    ret (SearchObject filteredResults).

(** The [Visit] tool's [implementation]. *)
Definition Visit (url : jsstring) (returnRaw : bool) : M VisitOutput :=
  let cfg := config w in
  response <- fetch url ;;
  if negb (ok response) then
    ret (VisitText (request_failure response))
  else
    html <- response_text response ;;
    if (returnRaw || visit_forceRaw cfg)%bool then
      ret (VisitText html)
    else
      article <- readability html ;;
      match article with
      | None => ret (VisitText extraction_failure)
      | Some article =>
          let text := cleanText (art_textContent article) in
          let text := limitText (visit_maxContentLength cfg) text in
          ret (VisitObject
                 {| title := art_title article;
                    content := text;
                    excerpt := art_excerpt article;
                    byline := art_byline article;
                    siteName := art_siteName article;
                    lang := art_lang article;
                    publishedTime := art_publishedTime article |})
      end.

(** The URL [Search] requests, given the parsed base URL. *)
Definition target (query : jsstring) (base : Url.t) : jsstring :=
  Url.toString (searchURL (config w) query base).

(** The rest of [Search] once [response.json()] has read the body:
    everything is decided by the parse of the body. *)
Definition afterParse (parsed : option json) : M SearchOutput :=
  data <- or_throw SyntaxError parsed ;;
  results <- get (Some data) (js "results") ;;
  mapped <- Array_map toResult results ;;
  ret (SearchObject (Array_slice0 (search_maxResults (config w)) mapped)).

(** The [results] array of a parsed body, when it has one. *)
Definition results_array (data : json) : option (list json) :=
  match data with
  | Json.Obj fields =>
      match Json.lookup (js "results") fields with
      | Some (Json.Arr items) => Some items
      | _ => None
      end
  | _ => None
  end.

(** The field [k] of an upstream result that is not [null]. *)
Definition field (k : jsstring) (r : json) : value :=
  match r with
  | Json.Obj fields => Json.lookup k fields
  | _ => None
  end.

(** An upstream result as [Search] hands it on. *)
Definition handed_on (r : json) : SearchResult :=
  {| res_title := field (js "title") r;
     res_summary := field (js "content") r;
     res_url := field (js "url") r |}.

Definition is_null (r : json) : bool :=
  match r with
  | Json.Null => true
  | _ => false
  end.

End Handlers.

(** ** Shapes of a text

    What it is for a text to have no two consecutive blank lines, no
    run of spaces and tabs, and no whitespace at either end. *)

(** The lines of a text: the pieces between its line feeds. *)
Fixpoint lines (s : jsstring) : list jsstring :=
  match s with
  | [] => [[]]
  | c :: s' =>
      if JsString.is_newline c then [] :: lines s'
      else match lines s' with
           | l :: ls => (c :: l) :: ls
           | [] => [[c]]
           end
  end.

(** A line is blank when it holds nothing but whitespace. *)
Definition blank (l : jsstring) : bool := forallb JsString.is_whitespace l.

Fixpoint no_two_blank (ls : list jsstring) : bool :=
  match ls with
  | [] => true
  | a :: t =>
      match t with
      | [] => true
      | b :: _ => negb (blank a && blank b) && no_two_blank t
      end
  end.

Definition starts_with_space_or_tab (s : jsstring) : bool :=
  match s with
  | c :: _ => JsString.is_space_or_tab c
  | [] => false
  end.

(** No two neighbours are both a space or a tab. *)
Fixpoint no_space_run (s : jsstring) : bool :=
  match s with
  | [] => true
  | c :: s' =>
      negb (JsString.is_space_or_tab c && starts_with_space_or_tab s')
      && no_space_run s'
  end.

Definition starts_with_whitespace (s : jsstring) : bool :=
  match s with
  | c :: _ => JsString.is_whitespace c
  | [] => false
  end.

(** Whitespace neither at the start nor at the end. *)
Definition trimmed (s : jsstring) : bool :=
  negb (starts_with_whitespace s) && negb (starts_with_whitespace (rev s)).

(** The text goes through whitespace to a line feed. *)
Fixpoint reaches_newline (s : jsstring) : bool :=
  match s with
  | [] => false
  | c :: s' =>
      JsString.is_newline c || (JsString.is_whitespace c && reaches_newline s')
  end.

(** No line feed is followed, through whitespace only, by another. *)
Fixpoint no_blank_gap (s : jsstring) : bool :=
  match s with
  | [] => true
  | c :: s' =>
      negb (JsString.is_newline c && reaches_newline s') && no_blank_gap s'
  end.

(** Every line but the last holds something other than whitespace. *)
Fixpoint inner_lines_not_blank (ls : list jsstring) : bool :=
  match ls with
  | [] => true
  | l :: t =>
      match t with
      | [] => true
      | _ :: _ => negb (blank l) && inner_lines_not_blank t
      end
  end.

(** ** The two replacements of [cleanText] *)

(** The continuation of [\s*] in [/\n\s*\n/]: the closing line feed. *)
Definition closing : jsstring -> option nat :=
  RegExp.match_len [RegExp.Atom JsString.is_newline RegExp.One].

(** [s.replace(/\n\s*\n/g, "\n")] *)
Definition collapse_blank_lines : jsstring -> jsstring :=
  RegExp.replace_all RegExp.blank_lines [10%N].

(** [[ \t]*] with nothing after it: the length of the run. *)
Definition run : jsstring -> option nat :=
  RegExp.star JsString.is_space_or_tab (RegExp.match_len []).

(** [s.replace(/[ \t]+/g, " ")] *)
Definition collapse_spaces : jsstring -> jsstring :=
  RegExp.replace_all RegExp.spaces_or_tabs [32%N].

(** ** Sample environments *)

(** The defaults of [configSchema]. *)
Definition default_config : Config :=
  {| search_baseURL := js "http://localhost/search";
     search_maxResults := 5;
     search_engines := [js "google"; js "bing"; js "wikipedia"];
     search_safeSearch := js "Off";
     search_language := js "en-US";
     visit_forceRaw := false;
     visit_maxContentLength := 4096 |}.

Definition with_search (maxResults : Z) (engines : list jsstring)
    (cfg : Config) : Config :=
  {| search_baseURL := search_baseURL cfg;
     search_maxResults := maxResults;
     search_engines := engines;
     search_safeSearch := search_safeSearch cfg;
     search_language := search_language cfg;
     visit_forceRaw := visit_forceRaw cfg;
     visit_maxContentLength := visit_maxContentLength cfg |}.

Definition with_visit (forceRaw : bool) (maxContentLength : Z)
    (cfg : Config) : Config :=
  {| search_baseURL := search_baseURL cfg;
     search_maxResults := search_maxResults cfg;
     search_engines := search_engines cfg;
     search_safeSearch := search_safeSearch cfg;
     search_language := search_language cfg;
     visit_forceRaw := forceRaw;
     visit_maxContentLength := maxContentLength |}.

(** The parse of a URL that has neither a query nor a fragment, as the
    default base URL. *)
Definition plain_URL (s : jsstring) : option Url.t :=
  Some {| Url.head := s; Url.query := None; Url.params := [];
          Url.fragment := None |}.

(** A world in which every request gets the response [r], whose body
    parses as JSON to [parsed] and as a document to [article]. *)
Definition sample_world (cfg : Config) (r : Response)
    (parsed : option (json Z)) (article : option Article) : World Z :=
  {| config := cfg;
     net := fun _ => Some r;
     JSON_parse := fun _ => parsed;
     URL_parse := plain_URL;
     Readability_parse := fun _ => article |}.

Definition quoted (s : jsstring) : jsstring := 34%N :: s ++ [34%N].

Definition not_found : Response :=
  {| status := 404; statusText := js "Not Found"; body := js "Not Found" |}.

Definition found (text : jsstring) : Response :=
  {| status := 200; statusText := js "OK"; body := text |}.

(** [{"results":[{"url":"http://a.example/","title":"A","content":"About A"}]}] *)
Definition one_result_body : jsstring :=
  js "{" ++ quoted (js "results") ++ js ":[{"
    ++ quoted (js "url") ++ js ":" ++ quoted (js "http://a.example/") ++ js ","
    ++ quoted (js "title") ++ js ":" ++ quoted (js "A") ++ js ","
    ++ quoted (js "content") ++ js ":" ++ quoted (js "About A") ++ js "}]}".

Definition one_result : json Z :=
  Json.Obj
    [(js "results",
      Json.Arr
        [Json.Obj [(js "url", Json.Str (js "http://a.example/"));
                   (js "title", Json.Str (js "A"));
                   (js "content", Json.Str (js "About A"))]])].

(** [{"error":"busy"}] *)
Definition error_body : jsstring :=
  js "{" ++ quoted (js "error") ++ js ":" ++ quoted (js "busy") ++ js "}".

Definition error_object : json Z :=
  Json.Obj [(js "error", Json.Str (js "busy"))].

Definition page : jsstring :=
  js "<html><body><article><p>Hello</p></article></body></html>".

Definition article_with (text : option jsstring) : Article :=
  {| art_title := Some (js "Hello");
     art_textContent := text;
     art_excerpt := None;
     art_byline := None;
     art_siteName := None;
     art_lang := Some (js "en");
     art_publishedTime := None |}.

(** Three hundred times "word", with blank lines, tabs and doubled
    spaces in between. *)
Definition long_text : jsstring :=
  List.concat (repeat ([32%N; 10%N; 9%N; 10%N; 10%N; 32%N; 32%N] ++ js "word") 300).

(** The example of the specification: engines ["bing"], language
    "en-US", three results at most, safe search Off, the default base
    URL. *)
Definition bing_world : World Z :=
  sample_world (with_search 3 [js "bing"] default_config)
    (found one_result_body) (Some one_result) None.

Definition bing_target : jsstring :=
  js "http://localhost/search?q=weather+today&engines=bing&language=en-US&format=json&safesearch=2".

(** The same with [maxResults] at 0. *)
Definition unlimited_world : World Z :=
  sample_world (with_search 0 [js "bing"] default_config)
    (found one_result_body) (Some one_result) None.

(** A page whose extracted text is [long_text], read with a limit of
    256 code units. *)
Definition reading_world : World Z :=
  sample_world (with_visit false 256 default_config)
    (found page) None (Some (article_with (Some long_text))).

(** ** The revision of [src/index.ts]

    The earlier revision kept in [src/index.ts]: [Search] takes a list of
    categories and sends it as a parameter, does not log, numbers safe
    search the other way round and hands results on under the keys
    [url], [title], [content]; [Visit] has no failure string, no
    collapsing of spaces and no limit, and always returns a string.  Its
    configuration has the fields of the [search] group only (the base URL
    under the key [baseSearchURL]). *)

Module Index.

Definition safeSearch (safeSearchValue : jsstring) : Z :=
  if JsString.eqb safeSearchValue (js "Moderate") then 1
  else if JsString.eqb safeSearchValue (js "Strict") then 2
  else 0.

(** The six [url.searchParams.append] calls. *)
Definition searchURL (cfg : Config) (query : jsstring)
    (categories : list jsstring) (url : Url.t) : Url.t :=
  let safe := safeSearch (search_safeSearch cfg) in
  let url := Url.append (js "q") query url in
  let url := Url.append (js "categories") (join_comma categories) url in
  let url := Url.append (js "engines") (join_comma (search_engines cfg)) url in
  let url := Url.append (js "language") (search_language cfg) url in
  let url := Url.append (js "format") (js "json") url in
  Url.append (js "safesearch") (Number_toString safe) url.

(** [article?.textContent], or the empty string when it is nullish,
    through [.replace(/\n\s*\n/g, "\n")] and [.trim()]. *)
Definition cleanText (article : option Article) : jsstring :=
  JsString.trim
    (RegExp.replace_all RegExp.blank_lines [10%N]
       (match
          match article with
          | Some a => art_textContent a
          | None => None
          end
        with
        | Some s => s
        | None => js ""
        end)).

Section Handlers.

Variable number : Type.

Record SearchResult := {
  res_url : value number;
  res_title : value number;
  res_content : value number
}.

Inductive SearchOutput :=
| SearchText (s : jsstring)
| SearchObject (results : list SearchResult).

Variable w : World number.

(** The callback of [map]: [{ url: r.url, title: r.title,
    content: r.content }]. *)
Definition toResult (r : value number) : M SearchResult :=
  u <- get r (js "url") ;;
  t <- get r (js "title") ;;
  c <- get r (js "content") ;;
  ret {| res_url := u; res_title := t; res_content := c |}.

(** The [Search] tool's [implementation]. *)
Definition Search (query : jsstring) (categories : list jsstring)
  : M SearchOutput :=
  let cfg := config w in
  url <- new_URL w (search_baseURL cfg) ;;
  let url := searchURL cfg query categories url in
  response <- fetch w (Url.toString url) ;;
  if negb (ok response) then
    ret (SearchText (request_failure response))
  else
    data <- response_json w response ;;
    results <- get (Some data) (js "results") ;;
    mapped <- Array_map toResult results ;;
    let filteredResults := Array_slice0 (search_maxResults cfg) mapped in
    ret (SearchObject filteredResults).

(** The [Visit] tool's [implementation]. *)
Definition Visit (url : jsstring) (returnRaw : bool) : M jsstring :=
  response <- fetch w url ;;
  if negb (ok response) then
    ret (request_failure response)
  else
    html <- response_text response ;;
    if returnRaw then
      ret html
    else
      article <- readability w html ;;
      ret (cleanText article).

(** An upstream result as this [Search] hands it on. *)
Definition handed_on (r : json number) : SearchResult :=
  {| res_url := field (js "url") r;
     res_title := field (js "title") r;
     res_content := field (js "content") r |}.

(** The URL this [Search] requests, given the parsed base URL. *)
Definition target (query : jsstring) (categories : list jsstring)
    (base : Url.t) : jsstring :=
  Url.toString (searchURL (config w) query categories base).

End Handlers.

End Index.

(** ** More shapes of texts and traces *)

(** The code units of a text that are not whitespace. *)
Definition visible (s : jsstring) : jsstring :=
  filter (fun c => negb (JsString.is_whitespace c)) s.

Definition no_tab (s : jsstring) : bool :=
  forallb (fun c => negb (N.eqb c 9)) s.

(** A string of 16-bit code units. *)
Definition well_formed (s : jsstring) : bool :=
  forallb (fun c => N.ltb c 65536) s.

(** An ASCII letter or digit, or one of [* - . _ + %]. *)
Definition url_safe (c : N) : bool :=
  (Url.is_ascii_alphanumeric c
   || N.eqb c 42 || N.eqb c 45 || N.eqb c 46 || N.eqb c 95
   || N.eqb c 43 || N.eqb c 37)%bool.

Definition is_fetch (ev : Event) : bool :=
  match ev with
  | Fetch _ => true
  | _ => false
  end.

(** ** More sample environments *)

(** [{"results":[null]}] *)
Definition null_result_body : jsstring :=
  js "{" ++ quoted (js "results") ++ js ":[null]}".

Definition null_result : json Z :=
  Json.Obj [(js "results", Json.Arr [Json.Null])].

(** [{"results":[{"url":"http://a.example/"},{"title":"B"}]}] *)
Definition two_results_body : jsstring :=
  js "{" ++ quoted (js "results") ++ js ":[{"
    ++ quoted (js "url") ++ js ":" ++ quoted (js "http://a.example/") ++ js "},{"
    ++ quoted (js "title") ++ js ":" ++ quoted (js "B") ++ js "}]}".

Definition two_results : json Z :=
  Json.Obj
    [(js "results",
      Json.Arr
        [Json.Obj [(js "url", Json.Str (js "http://a.example/"))];
         Json.Obj [(js "title", Json.Str (js "B"))]])].

(** A world with no network: every [fetch] is rejected. *)
Definition offline_world : World Z :=
  {| config := default_config;
     net := fun _ => None;
     JSON_parse := fun _ => None;
     URL_parse := plain_URL;
     Readability_parse := fun _ => None |}.

(** A world whose configured base URL [new URL] refuses. *)
Definition no_base_world : World Z :=
  {| config := default_config;
     net := fun _ => Some not_found;
     JSON_parse := fun _ => None;
     URL_parse := fun _ => None;
     Readability_parse := fun _ => None |}.

(** * Properties *)

(** ** The run-time model on concrete inputs *)

Example slice0_examples :
  Array_slice0 2 [1; 2; 3] = [1; 2]
  /\ Array_slice0 5 [1; 2; 3] = [1; 2; 3]
  /\ Array_slice0 0 [1; 2; 3] = []
  /\ Array_slice0 (-1) [1; 2; 3] = [1; 2].
Proof. repeat split. Qed.

(** The match starts at a line feed and runs to the last line feed of
    the whitespace that follows. *)
Example blank_lines_examples :
  RegExp.match_len RegExp.blank_lines [10; 32; 10; 13; 10; 32; 97; 10]%N = Some 5
  /\ RegExp.match_len RegExp.blank_lines [10; 32; 97; 10; 10]%N = None
  /\ RegExp.replace_all RegExp.blank_lines [10%N]
       [97; 10; 32; 10; 13; 10; 32; 98; 10; 10; 10; 99]%N
     = [97; 10; 32; 98; 10; 99]%N.
Proof. repeat split. Qed.

Example spaces_or_tabs_examples :
  RegExp.match_len RegExp.spaces_or_tabs [32; 9; 32; 97]%N = Some 3
  /\ RegExp.replace_all RegExp.spaces_or_tabs (js " ")
       [97; 32; 9; 32; 98; 9; 99; 32]%N
     = [97; 32; 98; 32; 99; 32]%N.
Proof. repeat split. Qed.

Example cleanText_example :
  cleanText (Some ([32; 32; 97; 10; 32; 10; 10; 98; 32; 9; 32; 99; 32; 10; 32; 10]%N))
  = [97; 10; 98; 32; 99]%N.
Proof. reflexivity. Qed.

Example limitText_examples :
  limitText 4 (js "abcdefg") = js "abcd...Text truncated due to length limit"
  /\ limitText 7 (js "abcdefg") = js "abcdefg"
  /\ limitText 0 (js "abcdefg") = js "abcdefg".
Proof. repeat split. Qed.

(** A space becomes [+]; U+00E9 and U+1F600 (a surrogate pair) are
    written as the bytes of their UTF-8 encoding. *)
Example urlencoded_examples :
  Url.urlencoded_string (js "a b&c=d/~*") = js "a+b%26c%3Dd%2F%7E*"
  /\ Url.urlencoded_string [233%N] = js "%C3%A9"
  /\ Url.urlencoded_string [55357%N; 56832%N] = js "%F0%9F%98%80".
Proof. repeat split. Qed.

(** The example of the specification returns its one upstream result. *)
Example Search_example :
  Search bing_world (js "weather today")
  = ([ConsoleLog bing_target; Fetch bing_target; ReadJson one_result_body],
     inr (SearchObject
            [{| res_title := Some (Json.Str (js "A"));
                res_summary := Some (Json.Str (js "About A"));
                res_url := Some (Json.Str (js "http://a.example/")) |}])).
Proof. vm_compute; reflexivity. Qed.

(** ** Strings *)

Lemma eqb_eq (a b : jsstring) : JsString.eqb a b = true <-> a = b.
Proof.
  revert b; induction a as [|x a IH]; intros [|y b]; simpl;
    try (split; [discriminate | discriminate]); try tauto.
  rewrite andb_true_iff, N.eqb_eq, IH.
  split; [intros [-> ->]; reflexivity | intros E; inversion E; tauto].
Qed.

Lemma eqb_neq (a b : jsstring) : a <> b -> JsString.eqb a b = false.
Proof.
  intros H; destruct (JsString.eqb a b) eqn:E; [|reflexivity].
  apply eqb_eq in E; contradiction.
Qed.

Lemma starts_with_app (p b : jsstring) : JsString.starts_with p (p ++ b) = true.
Proof.
  induction p as [|x p IH]; simpl; [reflexivity|].
  now rewrite N.eqb_refl, IH.
Qed.

Lemma includes_app (p a b : jsstring) : JsString.includes p (a ++ p ++ b) = true.
Proof.
  induction a as [|x a IH]; simpl.
  - destruct (p ++ b) eqn:E; simpl; rewrite <- E, starts_with_app; reflexivity.
  - rewrite IH; apply orb_true_r.
Qed.

(** ** Running the handlers *)

Section Runs.

Variable number : Type.
Variable w : World number.

Lemma ok_true (r : Response) :
  (200 <= status r <= 299)%Z -> ok r = true.
Proof. unfold ok; intros H; apply andb_true_iff; split; apply Z.leb_le; lia. Qed.

Lemma ok_false (r : Response) :
  ~ (200 <= status r <= 299)%Z -> ok r = false.
Proof.
  unfold ok; intros H.
  destruct (200 <=? status r)%Z eqn:A, (status r <=? 299)%Z eqn:B;
    try reflexivity.
  apply Z.leb_le in A, B; lia.
Qed.

(** [Visit] up to the status check. *)
Lemma Visit_failure url returnRaw r :
  net w url = Some r -> ok r = false ->
  Visit w url returnRaw = ([Fetch url], inr (VisitText (request_failure r))).
Proof.
  intros Hn Hok; unfold Visit, fetch, bind, emit, or_throw, ret.
  rewrite Hn; simpl; rewrite Hok; reflexivity.
Qed.

Lemma Visit_raw url returnRaw r :
  net w url = Some r -> ok r = true ->
  (returnRaw || visit_forceRaw (config w))%bool = true ->
  Visit w url returnRaw
  = ([Fetch url; ReadText (body r)], inr (VisitText (body r))).
Proof.
  intros Hn Hok Hraw;
    unfold Visit, fetch, response_text, bind, emit, or_throw, ret.
  rewrite Hn; simpl; rewrite Hok; simpl; rewrite Hraw; reflexivity.
Qed.

Lemma Visit_extract url r :
  net w url = Some r -> ok r = true ->
  visit_forceRaw (config w) = false ->
  Visit w url false
  = ([Fetch url; ReadText (body r); ParseDocument (body r)],
     inr match Readability_parse w (body r) with
         | None => VisitText extraction_failure
         | Some a =>
             VisitObject
               {| title := art_title a;
                  content := limitText (visit_maxContentLength (config w))
                               (cleanText (art_textContent a));
                  excerpt := art_excerpt a;
                  byline := art_byline a;
                  siteName := art_siteName a;
                  lang := art_lang a;
                  publishedTime := art_publishedTime a |}
         end).
Proof.
  intros Hn Hok Hraw;
    unfold Visit, fetch, response_text, readability, bind, emit, or_throw, ret.
  rewrite Hn; simpl; rewrite Hok; simpl; rewrite Hraw; simpl.
  destruct (Readability_parse w (body r)); reflexivity.
Qed.

Lemma trace_ret_bind (A B : Type) (a : A) (f : A -> M B) :
  trace (bind (ret a) f) = trace (f a).
Proof. unfold bind, ret; destruct (f a); reflexivity. Qed.

Lemma trace_emit_bind (B : Type) (ev : Event) (f : unit -> M B) :
  trace (bind (emit ev) f) = ev :: trace (f tt).
Proof. unfold bind, emit; destruct (f tt); reflexivity. Qed.

Lemma trace_emit_bind_bind (B C : Type) (ev : Event) (g : unit -> M B)
    (f : B -> M C) :
  trace (bind (bind (emit ev) g) f) = ev :: trace (bind (g tt) f).
Proof.
  unfold bind, emit; destruct (g tt) as [tr [e | b]]; [reflexivity|].
  destruct (f b); reflexivity.
Qed.

(** [Search] logs its URL and requests it before anything else. *)
Lemma Search_requests query base :
  URL_parse w (search_baseURL (config w)) = Some base ->
  exists tr,
    trace (Search w query)
    = ConsoleLog (target w query base) :: Fetch (target w query base) :: tr.
Proof.
  intros Hu; unfold Search, new_URL, fetch; rewrite Hu.
  unfold or_throw at 1.
  rewrite trace_ret_bind, trace_emit_bind, trace_emit_bind_bind.
  eexists; reflexivity.
Qed.

Lemma Search_failure query base r :
  URL_parse w (search_baseURL (config w)) = Some base ->
  net w (target w query base) = Some r -> ok r = false ->
  Search w query
  = ([ConsoleLog (target w query base); Fetch (target w query base)],
     inr (SearchText number (request_failure r))).
Proof.
  intros Hu Hn Hok; unfold target in *;
    unfold Search, new_URL, fetch, bind, emit, or_throw, ret.
  rewrite Hu; simpl; rewrite Hn; simpl; rewrite Hok; reflexivity.
Qed.

Lemma Search_success query base r :
  URL_parse w (search_baseURL (config w)) = Some base ->
  net w (target w query base) = Some r -> ok r = true ->
  Search w query
  = ([ConsoleLog (target w query base); Fetch (target w query base);
      ReadJson (body r)] ++ trace (afterParse w (JSON_parse w (body r))),
     result (afterParse w (JSON_parse w (body r)))).
Proof.
  intros Hu Hn Hok; unfold target in *;
    unfold Search, afterParse, new_URL, fetch, response_json.
  unfold bind at 1; unfold or_throw at 1; rewrite Hu; unfold ret at 1.
  unfold bind at 1; unfold emit at 1.
  unfold bind at 1; unfold bind at 1; unfold emit at 1.
  rewrite Hn; unfold or_throw at 1, ret at 1; rewrite Hok; simpl negb; cbv iota.
  unfold bind at 1; unfold bind at 1; unfold emit at 1.
  destruct (JSON_parse w (body r)) as [data|]; simpl; [|reflexivity].
  match goal with |- context [bind ?m ?f] => destruct (bind m f) as [tr res] end.
  reflexivity.
Qed.

End Runs.

(** ** The status check *)

(** C2: on a response whose status is outside 200..299 both handlers
    return the string "Failed to make request: " followed by the status
    text, which therefore contains the status text, and the run ends
    there: [Search] has logged and fetched its URL, [Visit] has fetched,
    and neither has read the body, parsed JSON or run the extraction. *)
Theorem non_success_returns_status_text
    (number : Type) (w : World number) (r : Response) :
  ~ (200 <= status r <= 299)%Z ->
  (forall query base,
      URL_parse w (search_baseURL (config w)) = Some base ->
      net w (target w query base) = Some r ->
      Search w query
      = ([ConsoleLog (target w query base); Fetch (target w query base)],
         inr (SearchText number (js "Failed to make request: " ++ statusText r))))
  /\ (forall url returnRaw,
         net w url = Some r ->
         Visit w url returnRaw
         = ([Fetch url],
            inr (VisitText (js "Failed to make request: " ++ statusText r))))
  /\ JsString.includes (statusText r)
       (js "Failed to make request: " ++ statusText r) = true.
Proof.
  intros Hst; apply ok_false in Hst; repeat split.
  - intros query base Hu Hn; exact (Search_failure w query Hu Hn Hst).
  - intros url returnRaw Hn; exact (Visit_failure w url returnRaw Hn Hst).
  - rewrite <- (app_nil_r (statusText r)) at 2; apply includes_app.
Qed.

(** ** Raw visits *)

(** C3: on a successful response, when [returnRaw] or the configured
    [forceRaw] is true, [Visit] returns the body text as it was read,
    with no extraction run; and with [forceRaw] set, a call with
    [returnRaw] false runs exactly as a call with [returnRaw] true. *)
Theorem raw_visit_returns_body
    (number : Type) (w : World number) (url : jsstring) (r : Response)
    (returnRaw : bool) :
  net w url = Some r ->
  (200 <= status r <= 299)%Z ->
  returnRaw = true \/ visit_forceRaw (config w) = true ->
  Visit w url returnRaw
  = ([Fetch url; ReadText (body r)], inr (VisitText (body r)))
  /\ (visit_forceRaw (config w) = true -> Visit w url false = Visit w url true).
Proof.
  intros Hn Hst Hraw; apply ok_true in Hst; split.
  - apply Visit_raw; auto.
    destruct Hraw as [-> | ->]; [reflexivity | apply orb_true_r].
  - intros Hf.
    assert (A : forall b, (b || visit_forceRaw (config w))%bool = true)
      by (intros b; rewrite Hf; apply orb_true_r).
    rewrite (Visit_raw w url false Hn Hst (A false)).
    rewrite (Visit_raw w url true Hn Hst (A true)). reflexivity.
Qed.

(** ** Extraction *)

(** C5: on a successful response of a call that is not raw, when the
    readability extraction finds no article, [Visit] returns (it does
    not throw) the string "Failed to extract readable content." *)
Theorem extraction_failure_string
    (number : Type) (w : World number) (url : jsstring) (r : Response) :
  net w url = Some r ->
  (200 <= status r <= 299)%Z ->
  visit_forceRaw (config w) = false ->
  Readability_parse w (body r) = None ->
  result (Visit w url false)
  = inr (VisitText (js "Failed to extract readable content.")).
Proof.
  intros Hn Hst Hf Hp; apply ok_true in Hst.
  rewrite (Visit_extract w url Hn Hst Hf), Hp; reflexivity.
Qed.

(** C10: when the extraction succeeds, [Visit] returns the structured
    object, whose [content] is a string computed from the article's
    text; when that text is null, it is taken as the empty string and
    the object (not the failure string) is returned with an empty
    [content]. *)
Theorem null_text_gives_empty_content
    (number : Type) (w : World number) (url : jsstring) (r : Response)
    (a : Article) :
  net w url = Some r ->
  (200 <= status r <= 299)%Z ->
  visit_forceRaw (config w) = false ->
  Readability_parse w (body r) = Some a ->
  (exists obj, result (Visit w url false) = inr (VisitObject obj)
               /\ content obj
                  = limitText (visit_maxContentLength (config w))
                      (cleanText (art_textContent a)))
  /\ (art_textContent a = None ->
      result (Visit w url false)
      = inr (VisitObject
               {| title := art_title a;
                  content := js "";
                  excerpt := art_excerpt a;
                  byline := art_byline a;
                  siteName := art_siteName a;
                  lang := art_lang a;
                  publishedTime := art_publishedTime a |})).
Proof.
  intros Hn Hst Hf Hp; apply ok_true in Hst.
  rewrite (Visit_extract w url Hn Hst Hf), Hp; split.
  - eexists; split; reflexivity.
  - intros Ht; rewrite Ht.
    unfold limitText; destruct (visit_maxContentLength (config w));
      reflexivity.
Qed.

(** C4: with a configured limit [L > 0] and a normalised text longer
    than [L], the [content] of the object [Visit] returns is the first
    [L] code units of the normalised text followed by the truncation
    marker; when the text has at most [L] code units, or [L = 0], the
    [content] is the normalised text itself. *)
Theorem content_truncated_at_limit
    (number : Type) (w : World number) (url : jsstring) (r : Response)
    (a : Article) :
  net w url = Some r ->
  (200 <= status r <= 299)%Z ->
  visit_forceRaw (config w) = false ->
  Readability_parse w (body r) = Some a ->
  let L := visit_maxContentLength (config w) in
  let text := cleanText (art_textContent a) in
  exists obj,
    result (Visit w url false) = inr (VisitObject obj)
    /\ ((0 < L)%Z -> (L < JsString.length text)%Z ->
        content obj
        = firstn (Z.to_nat L) text
            ++ js "...Text truncated due to length limit"
        /\ JsString.length (firstn (Z.to_nat L) text) = L)
    /\ ((JsString.length text <= L)%Z \/ L = 0%Z -> content obj = text).
Proof.
  intros Hn Hst Hf Hp L text; apply ok_true in Hst.
  rewrite (Visit_extract w url Hn Hst Hf), Hp.
  eexists; split; [reflexivity|]; simpl; fold L; fold text.
  unfold limitText, JsString.slice0, slice_end, JsString.length; split.
  - intros H0 H1. unfold JsString.length in H1.
    replace (L >? 0)%Z with true by (symmetry; apply Z.gtb_lt; lia).
    replace (Z.of_nat (List.length text) >? L)%Z with true
      by (symmetry; apply Z.gtb_lt; lia).
    replace (L <? 0)%Z with false by (symmetry; apply Z.ltb_ge; lia).
    simpl. rewrite Nat.min_l by lia. split; [reflexivity|].
    rewrite length_firstn; lia.
  - intros [H | H].
    + replace (Z.of_nat (List.length text) >? L)%Z with false.
      * rewrite andb_false_r; reflexivity.
      * symmetry. rewrite Z.gtb_ltb. apply Z.ltb_ge. exact H.
    + rewrite H; reflexivity.
Qed.

(** ** The search request *)

Lemma serialize_cons (n v : jsstring) (ps : list (jsstring * jsstring)) :
  Url.urlencoded_serialize ((n, v) :: ps)
  = Url.urlencoded_string n ++ 61%N :: Url.urlencoded_string v
      ++ match ps with
         | [] => []
         | _ => 38%N :: Url.urlencoded_serialize ps
         end.
Proof. destruct ps; simpl; [rewrite app_nil_r|]; reflexivity. Qed.

Lemma serialize_app (ps qs : list (jsstring * jsstring)) :
  qs <> [] ->
  Url.urlencoded_serialize (ps ++ qs)
  = match ps with
    | [] => []
    | _ => Url.urlencoded_serialize ps ++ [38%N]
    end ++ Url.urlencoded_serialize qs.
Proof.
  intros Hq; induction ps as [|[n v] ps IH]; [reflexivity|].
  rewrite <- app_comm_cons, !serialize_cons, IH.
  destruct ps as [|p ps]; cbn [app].
  - destruct qs as [|q qs]; [contradiction|].
    generalize (Url.urlencoded_serialize (q :: qs)); intros X.
    rewrite app_nil_r, <- ?app_assoc; cbn [app]; rewrite <- ?app_assoc; reflexivity.
  - generalize (Url.urlencoded_serialize (p :: ps)) (Url.urlencoded_serialize qs); intros X Y.
    destruct (ps ++ qs) eqn:E.
    + apply app_eq_nil in E; destruct E; contradiction.
    + rewrite <- ?app_assoc; cbn [app]; rewrite <- ?app_assoc; cbn [app]. rewrite <- ?app_assoc. reflexivity.
Qed.

Lemma serialize_nonempty (ps : list (jsstring * jsstring)) :
  ps <> [] -> Url.urlencoded_serialize ps <> [].
Proof.
  destruct ps as [|[n v] ps]; [contradiction|]; intros _.
  rewrite serialize_cons; intros E.
  apply app_eq_nil in E; destruct E as [_ E]; discriminate.
Qed.

Lemma append_params n v u :
  Url.params (Url.append n v u) = Url.params u ++ [(n, v)].
Proof. reflexivity. Qed.

(** The pairs [Search] appends, in order. *)
Lemma searchURL_params (cfg : Config) (query : jsstring) (base : Url.t) :
  Url.params (searchURL cfg query base)
  = Url.params base
      ++ [ (js "q", query);
           (js "engines", join_comma (search_engines cfg));
           (js "language", search_language cfg);
           (js "format", js "json");
           (js "safesearch", Number_toString (safeSearch (search_safeSearch cfg))) ].
Proof.
  unfold searchURL; rewrite !append_params, <- !app_assoc; reflexivity.
Qed.

Lemma searchURL_toString (cfg : Config) (query : jsstring) (base : Url.t) :
  Url.toString (searchURL cfg query base)
  = Url.head base
      ++ 63%N :: Url.urlencoded_serialize (Url.params (searchURL cfg query base))
      ++ match Url.fragment base with Some f => 35%N :: f | None => [] end.
Proof.
  rewrite searchURL_params.
  unfold searchURL at 1.
  set (u4 := Url.append (js "format") _ _).
  assert (P : Url.params u4 ++ [(js "safesearch",
                 Number_toString (safeSearch (search_safeSearch cfg)))]
              = Url.params base
                ++ [ (js "q", query);
                     (js "engines", join_comma (search_engines cfg));
                     (js "language", search_language cfg);
                     (js "format", js "json");
                     (js "safesearch",
                      Number_toString (safeSearch (search_safeSearch cfg))) ]).
  { unfold u4; rewrite !append_params, <- !app_assoc; reflexivity. }
  unfold Url.toString, Url.append at 1 2 3; cbn [Url.head Url.query Url.fragment].
  rewrite P.
  destruct (Url.urlencoded_serialize _) eqn:E.
  - exfalso; revert E; apply serialize_nonempty.
    intros E; apply app_eq_nil in E; destruct E; discriminate.
  - reflexivity.
Qed.

(** C6: the final revision maps Off to 2, Moderate to 1, Strict to 0,
    and every value other than Moderate and Strict to 2; the number is
    what [Search] appends, in decimal, as the [safesearch] parameter,
    the last of the five it appends. *)
Theorem safe_search_mapping (cfg : Config) (query : jsstring) (base : Url.t) :
  safeSearch (js "Off") = 2%Z
  /\ safeSearch (js "Moderate") = 1%Z
  /\ safeSearch (js "Strict") = 0%Z
  /\ (forall v, v <> js "Moderate" -> v <> js "Strict" -> safeSearch v = 2%Z)
  /\ (Number_toString 2 = js "2" /\ Number_toString 1 = js "1"
      /\ Number_toString 0 = js "0")
  /\ exists ps,
       Url.params (searchURL cfg query base)
       = ps ++ [(js "safesearch",
                 Number_toString (safeSearch (search_safeSearch cfg)))].
Proof.
  repeat split.
  - intros v H1 H2; unfold safeSearch.
    rewrite (eqb_neq H1), (eqb_neq H2); reflexivity.
  - rewrite searchURL_params.
    exists (Url.params base
              ++ [ (js "q", query);
                   (js "engines", join_comma (search_engines cfg));
                   (js "language", search_language cfg);
                   (js "format", js "json") ]).
    rewrite <- app_assoc; reflexivity.
Qed.

(** C8, as the code has it: for the query "weather today" with engines
    ["bing"], language "en-US" and safe search Off, the URL [Search]
    logs and fetches contains
    [q=weather+today&engines=bing&language=en-US&format=json&safesearch=2]:
    the serialisation of [searchParams] writes a space as [+]. *)
Theorem search_url_example
    (number : Type) (w : World number) (base : Url.t) :
  URL_parse w (search_baseURL (config w)) = Some base ->
  search_engines (config w) = [js "bing"] ->
  search_language (config w) = js "en-US" ->
  search_safeSearch (config w) = js "Off" ->
  let u := target w (js "weather today") base in
  JsString.includes
    (js "q=weather+today&engines=bing&language=en-US&format=json&safesearch=2")
    u = true
  /\ exists tr, trace (Search w (js "weather today"))
                = ConsoleLog u :: Fetch u :: tr.
Proof.
  intros Hu He Hl Hs u; split.
  - unfold u, target. rewrite searchURL_toString, searchURL_params.
    rewrite He, Hl, Hs.
    rewrite serialize_app by discriminate.
    match goal with
    | |- JsString.includes ?p (?a ++ 63%N :: (?b ++ ?c) ++ ?d) = true =>
        replace (a ++ 63%N :: (b ++ c) ++ d) with ((a ++ 63%N :: b) ++ p ++ d)
    end.
    + apply includes_app.
    + assert (E : Url.urlencoded_serialize
                    [(js "q", js "weather today");
                     (js "engines", join_comma [js "bing"]);
                     (js "language", js "en-US"); (js "format", js "json");
                     (js "safesearch", Number_toString (safeSearch (js "Off")))]
                  = js "q=weather+today&engines=bing&language=en-US&format=json&safesearch=2")
        by (vm_compute; reflexivity).
      rewrite E; generalize (js "q=weather+today&engines=bing&language=en-US&format=json&safesearch=2").
      intros q; rewrite <- ?app_assoc; cbn [app]; rewrite <- ?app_assoc.
      reflexivity.
  - exact (Search_requests w (js "weather today") Hu).
Qed.

(** ** The search response *)

Section Parsed.

Variable number : Type.
Variable w : World number.

Lemma toResult_not_null (r : json number) :
  is_null r = false -> toResult (Some r) = ([], inr (handed_on r)).
Proof. destruct r; intros H; try discriminate H; reflexivity. Qed.

Lemma mapM_toResult (items : list (json number)) :
  forallb (fun r => negb (is_null r)) items = true ->
  mapM (@toResult number) (map (@Some _) items)
  = ([], inr (map (@handed_on number) items)).
Proof.
  induction items as [|r items IH]; intros H; [reflexivity|].
  simpl in H; apply andb_true_iff in H; destruct H as [Hr H].
  simpl; rewrite toResult_not_null by (now destruct (is_null r)).
  unfold bind at 1; rewrite (IH H); reflexivity.
Qed.

Lemma afterParse_results (data : json number) (items : list (json number)) :
  results_array data = Some items ->
  forallb (fun r => negb (is_null r)) items = true ->
  afterParse w (Some data)
  = ([], inr (SearchObject
                (Array_slice0 (search_maxResults (config w))
                   (map (@handed_on number) items)))).
Proof.
  intros Hr Hn; unfold afterParse.
  destruct data; try discriminate Hr; simpl in Hr.
  destruct (Json.lookup (js "results") fields) as [[]|] eqn:E;
    try discriminate Hr.
  injection Hr as ->.
  unfold or_throw, get; unfold bind at 1; unfold ret at 1.
  unfold bind at 1; unfold ret at 1; rewrite E.
  unfold Array_map; rewrite (mapM_toResult _ Hn); reflexivity.
Qed.

Lemma afterParse_no_results (data : json number) :
  results_array data = None ->
  afterParse w (Some data) = ([], inl TypeError).
Proof.
  intros Hr; unfold afterParse.
  destruct data; try reflexivity; simpl in Hr.
  unfold or_throw, get; unfold bind at 1; unfold ret at 1.
  unfold bind at 1; unfold ret at 1.
  destruct (Json.lookup (js "results") fields) as [[]|];
    try discriminate Hr; reflexivity.
Qed.

End Parsed.

Lemma slice0_positive (A : Type) (n : Z) (a : list A) :
  (0 <= n)%Z -> Array_slice0 n a = firstn (Z.to_nat n) a.
Proof.
  intros H; unfold Array_slice0, slice_end.
  replace (n <? 0)%Z with false by (symmetry; apply Z.ltb_ge; lia).
  destruct (Nat.le_ge_cases (Z.to_nat n) (List.length a)) as [L | L].
  - rewrite Nat.min_l by exact L; reflexivity.
  - rewrite Nat.min_r by exact L.
    rewrite firstn_all, firstn_all2 by exact L; reflexivity.
Qed.

(** With a positive limit [Search] hands on the first [N] upstream
    results, in upstream order. *)
Lemma Search_caps_results
    (number : Type) (w : World number) (query : jsstring) (base : Url.t)
    (r : Response) (data : json number) (items : list (json number)) :
  URL_parse w (search_baseURL (config w)) = Some base ->
  net w (target w query base) = Some r ->
  (200 <= status r <= 299)%Z ->
  JSON_parse w (body r) = Some data ->
  results_array data = Some items ->
  forallb (fun r => negb (is_null r)) items = true ->
  (0 < search_maxResults (config w))%Z ->
  result (Search w query)
  = inr (SearchObject
           (firstn (Z.to_nat (search_maxResults (config w)))
              (map (@handed_on number) items))).
Proof.
  intros Hu Hn Hst Hp Hr Hnn Hpos; apply ok_true in Hst.
  rewrite (Search_success w query Hu Hn Hst), Hp.
  rewrite (afterParse_results w data Hr Hnn); simpl.
  rewrite slice0_positive by lia; reflexivity.
Qed.

(** C1, at [maxResults = 0]: [slice(0, 0)] keeps nothing, so [Search]
    returns an empty [results] array whatever the upstream list is,
    where the claim (and the field's hint, "0 = Unlimited") promise
    every upstream result. *)
Theorem search_limit_zero_returns_nothing
    (number : Type) (w : World number) (query : jsstring) (base : Url.t)
    (r : Response) (data : json number) (items : list (json number)) :
  URL_parse w (search_baseURL (config w)) = Some base ->
  net w (target w query base) = Some r ->
  (200 <= status r <= 299)%Z ->
  JSON_parse w (body r) = Some data ->
  results_array data = Some items ->
  forallb (fun r => negb (is_null r)) items = true ->
  search_maxResults (config w) = 0%Z ->
  result (Search w query) = inr (SearchObject []).
Proof.
  intros Hu Hn Hst Hp Hr Hnn Hz; apply ok_true in Hst.
  rewrite (Search_success w query Hu Hn Hst), Hp.
  rewrite (afterParse_results w data Hr Hnn), Hz; reflexivity.
Qed.

(** C9: on a successful response whose body [JSON.parse] refuses,
    [Search] ends with the uncaught [SyntaxError]; on one whose parsed
    body has no [results] array it ends with an uncaught [TypeError].
    In neither case does it return a value. *)
Theorem malformed_search_body_throws
    (number : Type) (w : World number) (query : jsstring) (base : Url.t)
    (r : Response) :
  URL_parse w (search_baseURL (config w)) = Some base ->
  net w (target w query base) = Some r ->
  (200 <= status r <= 299)%Z ->
  (JSON_parse w (body r) = None ->
   result (Search w query) = inl SyntaxError)
  /\ (forall data,
         JSON_parse w (body r) = Some data ->
         results_array data = None ->
         result (Search w query) = inl TypeError).
Proof.
  intros Hu Hn Hst; apply ok_true in Hst.
  rewrite (Search_success w query Hu Hn Hst); split.
  - intros ->; reflexivity.
  - intros data -> Hr; rewrite (afterParse_no_results w data Hr); reflexivity.
Qed.

(** ** Character classes *)

Lemma newline_is_whitespace c :
  JsString.is_newline c = true -> JsString.is_whitespace c = true.
Proof.
  unfold JsString.is_newline; intros H; apply N.eqb_eq in H; subst c.
  reflexivity.
Qed.

Lemma space_or_tab_is_whitespace c :
  JsString.is_space_or_tab c = true -> JsString.is_whitespace c = true.
Proof.
  unfold JsString.is_space_or_tab; intros H; apply orb_true_iff in H.
  destruct H as [H | H]; apply N.eqb_eq in H; subst c; reflexivity.
Qed.

Lemma space_or_tab_not_newline c :
  JsString.is_space_or_tab c = true -> JsString.is_newline c = false.
Proof.
  unfold JsString.is_space_or_tab; intros H; apply orb_true_iff in H.
  destruct H as [H | H]; apply N.eqb_eq in H; subst c; reflexivity.
Qed.

Arguments JsString.is_whitespace : simpl never.
Arguments JsString.is_newline : simpl never.
Arguments JsString.is_space_or_tab : simpl never.

(** ** Global replacement *)

Lemma replace_from_skipn (p : RegExp.pattern) (r : jsstring) :
  RegExp.match_len p [] = None ->
  forall s k,
    RegExp.replace_from p r k s = RegExp.replace_from p r 0 (skipn k s).
Proof.
  intros Hp; induction s as [|x s IH]; intros [|k]; simpl;
    try rewrite Hp; try reflexivity.
  apply IH.
Qed.

(** *** [/\n\s*\n/g] *)

Lemma closing_eq s :
  closing s = match s with
              | x :: _ => if JsString.is_newline x then Some 1 else None
              | [] => None
              end.
Proof. destruct s as [|x s]; [reflexivity|]; unfold closing; simpl.
       destruct (JsString.is_newline x); reflexivity. Qed.

Lemma blank_lines_match s :
  RegExp.match_len RegExp.blank_lines s
  = match s with
    | x :: s' =>
        if JsString.is_newline x
        then option_map S (RegExp.star JsString.is_whitespace closing s')
        else None
    | [] => None
    end.
Proof. reflexivity. Qed.

Lemma star_reaches s :
  RegExp.star JsString.is_whitespace closing s = None
  <-> reaches_newline s = false.
Proof.
  induction s as [|x s IH]; simpl; [rewrite closing_eq; tauto|].
  rewrite closing_eq.
  destruct (JsString.is_whitespace x) eqn:W.
  - destruct (RegExp.star JsString.is_whitespace closing s) as [n|].
    + destruct (reaches_newline s).
      * rewrite orb_true_r; split; discriminate.
      * destruct IH as [_ IH]; specialize (IH eq_refl); discriminate IH.
    + destruct IH as [IH _]; rewrite (IH eq_refl), orb_false_r.
      destruct (JsString.is_newline x); split; auto; discriminate.
  - destruct (JsString.is_newline x) eqn:E.
    + apply newline_is_whitespace in E; congruence.
    + simpl; tauto.
Qed.

(** Greediness: after the match no line feed can still be reached. *)
Lemma star_rest s n :
  RegExp.star JsString.is_whitespace closing s = Some n ->
  reaches_newline (skipn n s) = false.
Proof.
  revert n; induction s as [|x s IH]; intros n; simpl.
  - rewrite closing_eq; discriminate.
  - rewrite closing_eq.
    destruct (JsString.is_whitespace x) eqn:W.
    + destruct (RegExp.star JsString.is_whitespace closing s) as [m|] eqn:E.
      * intros H; injection H as <-; simpl; apply IH; reflexivity.
      * destruct (JsString.is_newline x); [|discriminate].
        intros H; injection H as <-; simpl.
        apply star_reaches; exact E.
    + destruct (JsString.is_newline x) eqn:N; [|discriminate].
      apply newline_is_whitespace in N; congruence.
Qed.

Lemma collapse_blank_lines_reaches s :
  reaches_newline s = false ->
  reaches_newline (collapse_blank_lines s) = false.
Proof.
  unfold collapse_blank_lines, RegExp.replace_all.
  induction s as [|x s IH]; [reflexivity|].
  cbn [reaches_newline]; intros H.
  apply orb_false_iff in H; destruct H as [Hn Hw].
  cbn [RegExp.replace_from]; rewrite blank_lines_match, Hn.
  cbn [reaches_newline]; rewrite Hn; simpl.
  destruct (JsString.is_whitespace x); [|reflexivity].
  simpl in *; auto.
Qed.

Lemma replace_blank_lines_no_gap s k :
  no_blank_gap (RegExp.replace_from RegExp.blank_lines [10%N] k s) = true.
Proof.
  revert k; induction s as [|x s IH]; intros [|k];
    cbn [RegExp.replace_from]; try reflexivity; [|apply IH].
  rewrite blank_lines_match.
  destruct (JsString.is_newline x) eqn:N.
  - destruct (RegExp.star JsString.is_whitespace closing s) as [n|] eqn:E;
      cbn [option_map].
    + cbn [app no_blank_gap]; rewrite IH, andb_true_r.
      rewrite replace_from_skipn by reflexivity.
      fold (RegExp.replace_all RegExp.blank_lines [10%N] (skipn n s)).
      fold (collapse_blank_lines (skipn n s)).
      rewrite (collapse_blank_lines_reaches _ (star_rest _ E)).
      rewrite andb_false_r; reflexivity.
    + cbn [no_blank_gap]; rewrite IH, andb_true_r.
      apply star_reaches in E.
      fold (RegExp.replace_all RegExp.blank_lines [10%N] s).
      fold (collapse_blank_lines s).
      rewrite (collapse_blank_lines_reaches _ E), andb_false_r; reflexivity.
  - cbn [no_blank_gap]; rewrite N, IH; reflexivity.
Qed.

(** *** [/[ \t]+/g] *)

Lemma spaces_or_tabs_match s :
  RegExp.match_len RegExp.spaces_or_tabs s
  = match s with
    | x :: s' =>
        if JsString.is_space_or_tab x then option_map S (run s') else None
    | [] => None
    end.
Proof. reflexivity. Qed.

(** Greediness: the match is the whole run. *)
Lemma run_spec s :
  exists n, run s = Some n
            /\ forallb JsString.is_space_or_tab (firstn n s) = true
            /\ starts_with_space_or_tab (skipn n s) = false.
Proof.
  unfold run; induction s as [|x s (n & E & A & B)]; cbn [RegExp.star].
  - exists 0; auto.
  - destruct (JsString.is_space_or_tab x) eqn:H.
    + rewrite E; exists (S n); simpl; rewrite H; auto.
    + exists 0; simpl; auto.
Qed.

Lemma collapse_spaces_start s :
  starts_with_space_or_tab s = false ->
  starts_with_space_or_tab (collapse_spaces s) = false.
Proof.
  unfold collapse_spaces, RegExp.replace_all.
  destruct s as [|x s]; [reflexivity|]; simpl; intros H.
  rewrite H; exact H.
Qed.

Lemma replace_spaces_no_run s k :
  no_space_run (RegExp.replace_from RegExp.spaces_or_tabs [32%N] k s) = true.
Proof.
  revert k; induction s as [|x s IH]; intros [|k];
    cbn [RegExp.replace_from]; try reflexivity; [|apply IH].
  rewrite spaces_or_tabs_match.
  destruct (JsString.is_space_or_tab x) eqn:H.
  - destruct (run_spec s) as (n & E & A & B); rewrite E; cbn [option_map].
    cbn [app no_space_run].
    rewrite IH, andb_true_r.
    rewrite replace_from_skipn by reflexivity.
    fold (RegExp.replace_all RegExp.spaces_or_tabs [32%N] (skipn n s)).
    fold (collapse_spaces (skipn n s)).
    rewrite (collapse_spaces_start _ B), andb_false_r; reflexivity.
  - cbn [no_space_run]; rewrite H, IH; reflexivity.
Qed.

Lemma reaches_newline_skip s n :
  forallb JsString.is_space_or_tab (firstn n s) = true ->
  reaches_newline (skipn n s) = reaches_newline s.
Proof.
  revert s; induction n as [|n IH]; intros [|x s]; simpl; try reflexivity.
  intros H; apply andb_true_iff in H; destruct H as [Hx H].
  rewrite (IH _ H), (space_or_tab_not_newline _ Hx),
    (space_or_tab_is_whitespace _ Hx); reflexivity.
Qed.

Lemma replace_spaces_reaches s k :
  forallb JsString.is_space_or_tab (firstn k s) = true ->
  reaches_newline (RegExp.replace_from RegExp.spaces_or_tabs [32%N] k s)
  = reaches_newline s.
Proof.
  revert k; induction s as [|x s IH]; intros [|k];
    cbn [RegExp.replace_from]; try reflexivity.
  - intros _; rewrite spaces_or_tabs_match.
    destruct (JsString.is_space_or_tab x) eqn:H.
    + destruct (run_spec s) as (n & E & A & B); rewrite E; cbn [option_map].
      cbn [app reaches_newline].
      rewrite (IH _ A).
      rewrite (space_or_tab_not_newline _ H), (space_or_tab_is_whitespace _ H).
      reflexivity.
    + cbn [reaches_newline]; rewrite (IH 0 eq_refl); reflexivity.
  - cbn [firstn forallb reaches_newline]; intros H.
    apply andb_true_iff in H; destruct H as [Hx H].
    rewrite (IH _ H), (space_or_tab_not_newline _ Hx),
      (space_or_tab_is_whitespace _ Hx); reflexivity.
Qed.

Lemma replace_spaces_no_gap s k :
  no_blank_gap s = true ->
  no_blank_gap (RegExp.replace_from RegExp.spaces_or_tabs [32%N] k s) = true.
Proof.
  revert k; induction s as [|x s IH]; intros [|k];
    cbn [RegExp.replace_from]; try reflexivity;
    cbn [no_blank_gap]; intros G; apply andb_true_iff in G;
    destruct G as [Gx G]; [|apply IH; exact G].
  rewrite spaces_or_tabs_match.
  destruct (JsString.is_space_or_tab x) eqn:H.
  - destruct (run_spec s) as (n & E & A & B); rewrite E; cbn [option_map].
    cbn [app no_blank_gap].
    rewrite (IH _ G); reflexivity.
  - cbn [no_blank_gap]; rewrite (IH _ G), andb_true_r.
    rewrite (replace_spaces_reaches s 0 eq_refl); exact Gx.
Qed.

(** ** Prefixes, suffixes and [trim] *)

Lemma drop_while_split p s :
  exists a, s = a ++ JsString.drop_while p s.
Proof.
  induction s as [|x s [a E]]; simpl; [exists []; reflexivity|].
  destruct (p x); [|exists []; reflexivity].
  exists (x :: a); simpl; congruence.
Qed.

Lemma drop_while_start s :
  starts_with_whitespace (JsString.drop_while JsString.is_whitespace s) = false.
Proof.
  induction s as [|x s IH]; simpl; [reflexivity|].
  destruct (JsString.is_whitespace x) eqn:W; [exact IH | simpl; exact W].
Qed.

(** [trim] cuts a piece off each end. *)
Lemma trim_split s : exists a b, s = a ++ JsString.trim s ++ b.
Proof.
  unfold JsString.trim.
  destruct (drop_while_split JsString.is_whitespace s) as [a Ea].
  set (u := JsString.drop_while JsString.is_whitespace s) in *.
  destruct (drop_while_split JsString.is_whitespace (rev u)) as [b Eb].
  exists a, (rev b).
  rewrite <- rev_app_distr, <- Eb, rev_involutive; exact Ea.
Qed.

Lemma trim_trimmed s : trimmed (JsString.trim s) = true.
Proof.
  unfold trimmed, JsString.trim.
  set (u := JsString.drop_while JsString.is_whitespace s).
  rewrite rev_involutive, drop_while_start, andb_true_r.
  destruct (drop_while_split JsString.is_whitespace (rev u)) as [b Eb].
  apply (f_equal (@rev N)) in Eb; rewrite rev_involutive, rev_app_distr in Eb.
  destruct (rev (JsString.drop_while JsString.is_whitespace (rev u)))
    as [|c t] eqn:E; [reflexivity|].
  pose proof (drop_while_start s) as Hu; fold u in Hu.
  rewrite Eb in Hu; simpl in *; rewrite Hu; reflexivity.
Qed.

Lemma reaches_newline_app a b :
  reaches_newline a = true -> reaches_newline (a ++ b) = true.
Proof.
  induction a as [|x a IH]; simpl; [discriminate|].
  destruct (JsString.is_newline x); [reflexivity|]; simpl.
  destruct (JsString.is_whitespace x); [exact IH | discriminate].
Qed.

Lemma no_blank_gap_suffix a b :
  no_blank_gap (a ++ b) = true -> no_blank_gap b = true.
Proof.
  induction a as [|x a IH]; simpl; [auto|].
  intros H; apply andb_true_iff in H; apply IH, H.
Qed.

Lemma no_blank_gap_prefix a b :
  no_blank_gap (a ++ b) = true -> no_blank_gap a = true.
Proof.
  induction a as [|x a IH]; simpl; [auto|].
  intros H; apply andb_true_iff in H; destruct H as [Hx H].
  rewrite (IH H), andb_true_r.
  destruct (JsString.is_newline x); [|reflexivity].
  destruct (reaches_newline a) eqn:R; [|reflexivity].
  rewrite (reaches_newline_app a b R) in Hx; discriminate.
Qed.

Lemma no_space_run_suffix a b :
  no_space_run (a ++ b) = true -> no_space_run b = true.
Proof.
  induction a as [|x a IH]; simpl; [auto|].
  intros H; apply andb_true_iff in H; apply IH, H.
Qed.

Lemma no_space_run_prefix a b :
  no_space_run (a ++ b) = true -> no_space_run a = true.
Proof.
  induction a as [|x a IH]; simpl; [auto|].
  intros H; apply andb_true_iff in H; destruct H as [Hx H].
  rewrite (IH H), andb_true_r.
  destruct a; [rewrite andb_false_r; reflexivity | exact Hx].
Qed.

(** ** The appended marker *)

Lemma reaches_newline_marker a m :
  reaches_newline m = false -> reaches_newline (a ++ m) = reaches_newline a.
Proof.
  intros Hm; induction a as [|x a IH]; simpl; [exact Hm|].
  rewrite IH; reflexivity.
Qed.

Lemma no_blank_gap_app a m :
  reaches_newline m = false ->
  no_blank_gap a = true -> no_blank_gap m = true ->
  no_blank_gap (a ++ m) = true.
Proof.
  intros Hm Ha Hg; induction a as [|x a IH]; simpl in *; [exact Hg|].
  apply andb_true_iff in Ha; destruct Ha as [Hx Ha].
  rewrite (IH Ha), andb_true_r, (reaches_newline_marker a m Hm); exact Hx.
Qed.

Lemma no_space_run_app a m :
  starts_with_space_or_tab m = false ->
  no_space_run a = true -> no_space_run m = true ->
  no_space_run (a ++ m) = true.
Proof.
  intros Hm Ha Hg; induction a as [|x a IH]; simpl in *; [exact Hg|].
  apply andb_true_iff in Ha; destruct Ha as [Hx Ha].
  rewrite (IH Ha), andb_true_r.
  destruct a; simpl in *; [rewrite Hm, andb_false_r; reflexivity | exact Hx].
Qed.

(** ** The normalised text and the returned content *)

Lemma cleanText_shape (t : option jsstring) :
  no_blank_gap (cleanText t) = true
  /\ no_space_run (cleanText t) = true
  /\ trimmed (cleanText t) = true.
Proof.
  unfold cleanText.
  set (s0 := match t with Some s => s | None => js "" end).
  set (s1 := RegExp.replace_all RegExp.blank_lines [10%N] s0).
  set (s2 := RegExp.replace_all RegExp.spaces_or_tabs (js " ") s1).
  assert (G : no_blank_gap s2 = true).
  { apply replace_spaces_no_gap, replace_blank_lines_no_gap. }
  assert (R : no_space_run s2 = true) by apply replace_spaces_no_run.
  destruct (trim_split s2) as (a & b & E).
  rewrite E in G, R; repeat split.
  - eapply no_blank_gap_prefix, no_blank_gap_suffix; exact G.
  - eapply no_space_run_prefix, no_space_run_suffix; exact R.
  - apply trim_trimmed.
Qed.

Lemma limitText_shape (L : Z) (text : jsstring) :
  no_blank_gap text = true -> no_space_run text = true ->
  trimmed text = true ->
  no_blank_gap (limitText L text) = true
  /\ no_space_run (limitText L text) = true
  /\ trimmed (limitText L text) = true.
Proof.
  intros G R T; unfold limitText.
  destruct ((L >? 0)%Z && (JsString.length text >? L)%Z)%bool eqn:C; [|auto].
  apply andb_true_iff in C; destruct C as [C1 C2].
  apply Z.gtb_lt in C1, C2; unfold JsString.length in C2.
  unfold JsString.slice0, slice_end.
  replace (L <? 0)%Z with false by (symmetry; apply Z.ltb_ge; lia).
  rewrite Nat.min_l by lia.
  rewrite <- (firstn_skipn (Z.to_nat L) text) in G, R.
  repeat split.
  - apply no_blank_gap_app;
      [reflexivity | eapply no_blank_gap_prefix; exact G | reflexivity].
  - apply no_space_run_app;
      [reflexivity | eapply no_space_run_prefix; exact R | reflexivity].
  - unfold trimmed in *; apply andb_true_iff in T; destruct T as [T _].
    rewrite rev_app_distr; apply andb_true_iff; split; [|reflexivity].
    destruct text as [|c text]; [simpl in C2; lia|].
    destruct (Z.to_nat L) eqn:EL; [lia|]; exact T.
Qed.

(** ** Lines *)

Lemma lines_cons s : exists l ls, lines s = l :: ls.
Proof.
  induction s as [|c s (l & ls & E)]; simpl; [eauto|].
  destruct (JsString.is_newline c); [eauto|]; rewrite E; eauto.
Qed.

Lemma first_line_not_blank s l ls :
  reaches_newline s = false -> lines s = l :: ls ->
  ls = [] \/ blank l = false.
Proof.
  revert l ls; induction s as [|c s IH]; simpl; intros l ls H E.
  - injection E as <- <-; auto.
  - apply orb_false_iff in H; destruct H as [Hn Hw]; rewrite Hn in E.
    destruct (lines_cons s) as (l' & ls' & E'); rewrite E' in E.
    injection E as <- <-; simpl.
    destruct (JsString.is_whitespace c); [|auto].
    simpl in *; eapply IH; eauto.
Qed.

Lemma lines_after_first s l ls :
  no_blank_gap s = true -> lines s = l :: ls ->
  inner_lines_not_blank ls = true.
Proof.
  revert l ls; induction s as [|c s IH]; simpl; intros l ls G E.
  - injection E as <- <-; reflexivity.
  - apply andb_true_iff in G; destruct G as [Gc G].
    destruct (lines_cons s) as (l' & ls' & E').
    destruct (JsString.is_newline c).
    + injection E as <- <-; rewrite E'; simpl.
      rewrite (IH _ _ G E'), andb_true_r.
      destruct ls' as [|l'' ls'']; [reflexivity|].
      simpl in Gc; apply negb_true_iff in Gc.
      destruct (first_line_not_blank s Gc E') as [? | ->];
        [discriminate | reflexivity].
    + rewrite E' in E; injection E as <- <-; exact (IH _ _ G E').
Qed.

Lemma no_two_blank_from l ls :
  blank l = false -> inner_lines_not_blank ls = true ->
  no_two_blank (l :: ls) = true.
Proof.
  revert l; induction ls as [|l' ls IH]; intros l B I; [reflexivity|].
  cbn [no_two_blank]; rewrite B; simpl.
  destruct ls as [|l'' ls]; [reflexivity|].
  cbn [inner_lines_not_blank] in I; apply andb_true_iff in I.
  destruct I as [B' I]; apply negb_true_iff in B'; apply IH; assumption.
Qed.

Lemma lines_no_two_blank s :
  no_blank_gap s = true -> starts_with_whitespace s = false ->
  no_two_blank (lines s) = true.
Proof.
  intros G W; destruct s as [|c s]; [reflexivity|].
  destruct (lines_cons (c :: s)) as (l & ls & E); rewrite E.
  apply no_two_blank_from; [|exact (lines_after_first _ G E)].
  simpl in E, W.
  destruct (JsString.is_newline c) eqn:N.
  - apply newline_is_whitespace in N; congruence.
  - destruct (lines_cons s) as (l' & ls' & E'); rewrite E' in E.
    injection E as <- <-; simpl; rewrite W; reflexivity.
Qed.

(** C7: after a successful extraction the [content] of the object
    [Visit] returns has no two consecutive blank lines, no two
    neighbouring spaces or tabs, and no whitespace at its start or its
    end.  (Lines are the pieces between line feeds; a line is blank when
    it holds only whitespace.) *)
Theorem content_is_normalised
    (number : Type) (w : World number) (url : jsstring) (r : Response)
    (a : Article) :
  net w url = Some r ->
  (200 <= status r <= 299)%Z ->
  visit_forceRaw (config w) = false ->
  Readability_parse w (body r) = Some a ->
  exists obj,
    result (Visit w url false) = inr (VisitObject obj)
    /\ no_two_blank (lines (content obj)) = true
    /\ no_space_run (content obj) = true
    /\ trimmed (content obj) = true.
Proof.
  intros Hn Hst Hf Hp; apply ok_true in Hst.
  rewrite (Visit_extract w url Hn Hst Hf), Hp.
  eexists; split; [reflexivity|]; cbn [content].
  destruct (cleanText_shape (art_textContent a)) as (G & R & T).
  destruct (limitText_shape (visit_maxContentLength (config w)) _ G R T)
    as (G' & R' & T').
  repeat split; [|exact R' | exact T'].
  apply lines_no_two_blank; [exact G'|].
  unfold trimmed in T'; apply andb_true_iff in T'; destruct T' as [T' _].
  apply negb_true_iff; exact T'.
Qed.

(** * The theorems at sample environments *)

Lemma non_success_returns_status_text_witness :
  ~ (200 <= status not_found <= 299)%Z
  /\ Visit (sample_world default_config not_found None None)
       (js "http://a.example/") false
     = ([Fetch (js "http://a.example/")],
        inr (VisitText (js "Failed to make request: Not Found")))
  /\ Search (sample_world default_config not_found None None) (js "rocq")
     = ([ConsoleLog (js "http://localhost/search?q=rocq&engines=google%2Cbing%2Cwikipedia&language=en-US&format=json&safesearch=2");
         Fetch (js "http://localhost/search?q=rocq&engines=google%2Cbing%2Cwikipedia&language=en-US&format=json&safesearch=2")],
        inr (SearchText Z (js "Failed to make request: Not Found"))).
Proof.
  assert (H : ~ (200 <= status not_found <= 299)%Z) by (simpl; lia).
  pose proof (@non_success_returns_status_text Z
                (sample_world default_config not_found None None)
                not_found H) as (S & V & _).
  split; [exact H|]; split.
  - exact (V (js "http://a.example/") false eq_refl).
  - exact (S (js "rocq") _ eq_refl eq_refl).
Defined.

Lemma raw_visit_returns_body_witness :
  visit_forceRaw (with_visit true 4096 default_config) = true
  /\ Visit (sample_world (with_visit true 4096 default_config)
              (found page) None None) (js "http://a.example/") false
     = ([Fetch (js "http://a.example/"); ReadText page],
        inr (VisitText page)).
Proof.
  split; [reflexivity|].
  refine (proj1 (@raw_visit_returns_body Z
            (sample_world (with_visit true 4096 default_config)
               (found page) None None)
            (js "http://a.example/") (found page) false eq_refl _ _)).
  - simpl; lia.
  - right; reflexivity.
Defined.

Lemma extraction_failure_string_witness :
  Readability_parse (sample_world default_config (found page) None None) page
  = None
  /\ result (Visit (sample_world default_config (found page) None None)
               (js "http://a.example/") false)
     = inr (VisitText (js "Failed to extract readable content.")).
Proof.
  split; [reflexivity|].
  refine (@extraction_failure_string Z
            (sample_world default_config (found page) None None)
            (js "http://a.example/") (found page) eq_refl _ eq_refl eq_refl).
  simpl; lia.
Defined.

Lemma null_text_gives_empty_content_witness :
  art_textContent (article_with None) = None
  /\ result (Visit (sample_world default_config (found page) None
                      (Some (article_with None)))
               (js "http://a.example/") false)
     = inr (VisitObject
              {| title := Some (js "Hello");
                 content := js "";
                 excerpt := None;
                 byline := None;
                 siteName := None;
                 lang := Some (js "en");
                 publishedTime := None |}).
Proof.
  split; [reflexivity|].
  refine (proj2 (@null_text_gives_empty_content Z
            (sample_world default_config (found page) None
               (Some (article_with None)))
            (js "http://a.example/") (found page) (article_with None)
            eq_refl _ eq_refl eq_refl) eq_refl).
  simpl; lia.
Defined.

Lemma content_truncated_at_limit_witness :
  (256 < JsString.length (cleanText (Some long_text)))%Z
  /\ exists obj,
       result (Visit reading_world (js "http://a.example/") false)
       = inr (VisitObject obj)
       /\ content obj
          = firstn 256 (cleanText (Some long_text))
              ++ js "...Text truncated due to length limit".
Proof.
  assert (H : (256 < JsString.length (cleanText (Some long_text)))%Z)
    by (vm_compute; reflexivity).
  split; [exact H|].
  assert (S : (200 <= status (found page) <= 299)%Z) by (simpl; lia).
  destruct (@content_truncated_at_limit Z reading_world
              (js "http://a.example/") (found page)
              (article_with (Some long_text)) eq_refl S eq_refl eq_refl)
    as (obj & E & T & _).
  exists obj; split; [exact E|].
  exact (proj1 (T eq_refl H)).
Defined.

Lemma content_is_normalised_witness :
  exists obj,
    result (Visit reading_world (js "http://a.example/") false)
    = inr (VisitObject obj)
    /\ no_two_blank (lines (content obj)) = true
    /\ no_space_run (content obj) = true
    /\ trimmed (content obj) = true.
Proof.
  refine (@content_is_normalised Z reading_world (js "http://a.example/")
            (found page) (article_with (Some long_text))
            eq_refl _ eq_refl eq_refl).
  simpl; lia.
Defined.

Lemma safe_search_mapping_witness :
  safeSearch (js "Unknown") = 2%Z.
Proof.
  refine (proj1 (proj2 (proj2 (proj2
            (safe_search_mapping default_config (js "rocq")
               (Url.Make (js "http://localhost/search") None [] None)))))
            (js "Unknown") _ _);
    intros E; vm_compute in E; discriminate E.
Defined.

Lemma search_url_example_witness :
  JsString.includes
    (js "q=weather+today&engines=bing&language=en-US&format=json&safesearch=2")
    (target bing_world (js "weather today")
       (Url.Make (js "http://localhost/search") None [] None)) = true
  /\ exists tr,
       trace (Search bing_world (js "weather today"))
       = ConsoleLog (target bing_world (js "weather today")
                       (Url.Make (js "http://localhost/search") None [] None))
         :: Fetch (target bing_world (js "weather today")
                     (Url.Make (js "http://localhost/search") None [] None))
         :: tr.
Proof.
  exact (@search_url_example Z bing_world
           (Url.Make (js "http://localhost/search") None [] None)
           eq_refl eq_refl eq_refl eq_refl).
Defined.

(** C8, as the specification has it, fails: in the example's
    configuration [Search] logs and fetches [bing_target], in which the
    space of the query is a [+], and which does not contain
    [q=weather%20today&engines=bing&language=en-US&format=json&safesearch=2]. *)
Lemma search_url_has_no_percent_20 :
  trace (Search bing_world (js "weather today"))
  = [ConsoleLog bing_target; Fetch bing_target; ReadJson one_result_body]
  /\ JsString.includes
       (js "q=weather%20today&engines=bing&language=en-US&format=json&safesearch=2")
       bing_target = false.
Proof. split; vm_compute; reflexivity. Qed.

Lemma search_limit_zero_returns_nothing_witness :
  search_maxResults (config unlimited_world) = 0%Z
  /\ results_array one_result
     = Some [Json.Obj [(js "url", Json.Str (js "http://a.example/"));
                       (js "title", Json.Str (js "A"));
                       (js "content", Json.Str (js "About A"))]]
  /\ result (Search unlimited_world (js "rocq")) = inr (SearchObject []).
Proof.
  split; [reflexivity|]; split; [reflexivity|].
  refine (@search_limit_zero_returns_nothing Z unlimited_world (js "rocq")
            (Url.Make (js "http://localhost/search") None [] None)
            (found one_result_body) one_result _
            eq_refl eq_refl _ eq_refl eq_refl eq_refl eq_refl).
  simpl; lia.
Defined.

Lemma malformed_search_body_throws_witness :
  result (Search (sample_world default_config (found page) None None)
            (js "rocq")) = inl SyntaxError
  /\ result (Search (sample_world default_config (found error_body)
                       (Some error_object) None)
               (js "rocq")) = inl TypeError.
Proof.
  split.
  - refine (proj1 (@malformed_search_body_throws Z
              (sample_world default_config (found page) None None)
              (js "rocq")
              (Url.Make (js "http://localhost/search") None [] None)
              (found page) eq_refl eq_refl _) eq_refl).
    simpl; lia.
  - refine (proj2 (@malformed_search_body_throws Z
              (sample_world default_config (found error_body)
                 (Some error_object) None)
              (js "rocq")
              (Url.Make (js "http://localhost/search") None [] None)
              (found error_body) eq_refl eq_refl _)
              error_object eq_refl eq_refl).
    simpl; lia.
Defined.

(** * Further properties of the handlers *)

(** ** Failures of the environment *)

Section Failures.

Variable number : Type.
Variable w : World number.

Lemma trace_bind (A B : Type) (m : M A) (f : A -> M B) :
  trace (bind m f)
  = trace m ++ match result m with
               | inl _ => []
               | inr a => trace (f a)
               end.
Proof.
  destruct m as [tr [e | a]]; simpl; [rewrite app_nil_r; reflexivity|].
  destruct (f a); reflexivity.
Qed.

Lemma result_bind (A B : Type) (m : M A) (f : A -> M B) :
  result (bind m f)
  = match result m with
    | inl e => inl e
    | inr a => result (f a)
    end.
Proof.
  destruct m as [tr [e | a]]; simpl; [reflexivity|].
  destruct (f a); reflexivity.
Qed.

Lemma trace_ret (A : Type) (a : A) : trace (ret a) = [].
Proof. reflexivity. Qed.

Lemma result_ret (A : Type) (a : A) : result (ret a) = inr a.
Proof. reflexivity. Qed.

Lemma get_trace (v : value number) (k : jsstring) : trace (get v k) = [].
Proof. destruct v as [[]|]; reflexivity. Qed.

Lemma toResult_trace (v : value number) : trace (toResult v) = [].
Proof. destruct v as [[]|]; reflexivity. Qed.

Lemma mapM_toResult_trace (l : list (value number)) :
  trace (mapM (@toResult number) l) = [].
Proof.
  induction l as [|v l IH]; [reflexivity|]; simpl.
  rewrite trace_bind, toResult_trace; simpl.
  destruct (result (toResult v)); [reflexivity|].
  rewrite trace_bind, IH; simpl.
  destruct (result (mapM (@toResult number) l)); reflexivity.
Qed.

Lemma afterParse_trace (parsed : option (json number)) :
  trace (afterParse w parsed) = [].
Proof.
  unfold afterParse; rewrite trace_bind.
  destruct parsed as [data|]; [|reflexivity].
  cbn [or_throw]; rewrite trace_ret, result_ret; cbn [app].
  rewrite trace_bind, get_trace; cbn [app].
  destruct (result (get (Some data) (js "results"))) as [e | results];
    [reflexivity|].
  rewrite trace_bind.
  assert (T : trace (Array_map (@toResult number) results) = []).
  { destruct results as [[]|]; try reflexivity; apply mapM_toResult_trace. }
  rewrite T; cbn [app].
  destruct (result (Array_map (@toResult number) results)); reflexivity.
Qed.

Lemma Search_no_base query :
  URL_parse w (search_baseURL (config w)) = None ->
  Search w query = ([], inl TypeError).
Proof.
  intros Hu; unfold Search, new_URL, bind, or_throw; rewrite Hu; reflexivity.
Qed.

Lemma Search_no_network query base :
  URL_parse w (search_baseURL (config w)) = Some base ->
  net w (target w query base) = None ->
  Search w query
  = ([ConsoleLog (target w query base); Fetch (target w query base)],
     inl TypeError).
Proof.
  intros Hu Hn; unfold target in *;
    unfold Search, new_URL, fetch, bind, emit, or_throw, ret, throw.
  rewrite Hu; simpl; rewrite Hn; reflexivity.
Qed.

Lemma Visit_no_network url returnRaw :
  net w url = None ->
  Visit w url returnRaw = ([Fetch url], inl TypeError).
Proof.
  intros Hn; unfold Visit, fetch, bind, emit, or_throw, throw.
  rewrite Hn; reflexivity.
Qed.

End Failures.

(** When [new URL] refuses the configured base URL, [Search] ends with
    the uncaught [TypeError] before it has logged or requested
    anything. *)
Theorem Search_invalid_base_throws
    (number : Type) (w : World number) (query : jsstring) :
  URL_parse w (search_baseURL (config w)) = None ->
  Search w query = ([], inl TypeError).
Proof. apply Search_no_base. Qed.

(** When [fetch] is rejected, neither handler returns its failure
    string: the rejection ends the run as an uncaught [TypeError], right
    after the request. *)
Theorem rejected_fetch_throws (number : Type) (w : World number) :
  (forall url returnRaw,
      net w url = None ->
      Visit w url returnRaw = ([Fetch url], inl TypeError))
  /\ (forall query base,
         URL_parse w (search_baseURL (config w)) = Some base ->
         net w (target w query base) = None ->
         Search w query
         = ([ConsoleLog (target w query base); Fetch (target w query base)],
            inl TypeError)).
Proof.
  split.
  - intros url returnRaw; apply Visit_no_network.
  - intros query base; apply Search_no_network.
Qed.

(** Every run of [Visit] makes one request, to the given URL, as its
    first step; a run of [Search] either stops at a refused base URL
    with no step at all, or logs its URL, requests it, and makes no
    other request. *)
Theorem one_request_per_call (number : Type) (w : World number) :
  (forall url returnRaw,
      exists rest,
        trace (Visit w url returnRaw) = Fetch url :: rest
        /\ existsb is_fetch rest = false)
  /\ (forall query,
         trace (Search w query) = []
         \/ exists base rest,
              URL_parse w (search_baseURL (config w)) = Some base
              /\ trace (Search w query)
                 = ConsoleLog (target w query base)
                   :: Fetch (target w query base) :: rest
              /\ existsb is_fetch rest = false).
Proof.
  split.
  - intros url returnRaw.
    destruct (net w url) as [r|] eqn:Hn.
    + destruct (ok r) eqn:Hok.
      * destruct (returnRaw || visit_forceRaw (config w))%bool eqn:Hraw.
        -- rewrite (Visit_raw w url returnRaw Hn Hok Hraw).
           eexists; split; reflexivity.
        -- apply orb_false_iff in Hraw; destruct Hraw as [-> Hf].
           rewrite (Visit_extract w url Hn Hok Hf).
           eexists; split; reflexivity.
      * rewrite (Visit_failure w url returnRaw Hn Hok).
        eexists; split; reflexivity.
    + rewrite (Visit_no_network w url returnRaw Hn).
      eexists; split; reflexivity.
  - intros query.
    destruct (URL_parse w (search_baseURL (config w))) as [base|] eqn:Hu.
    + right; exists base.
      destruct (net w (target w query base)) as [r|] eqn:Hn.
      * destruct (ok r) eqn:Hok.
        -- rewrite (Search_success w query Hu Hn Hok), afterParse_trace.
           eexists; repeat split.
        -- rewrite (Search_failure w query Hu Hn Hok).
           eexists; repeat split.
      * rewrite (Search_no_network w query Hu Hn).
        eexists; repeat split.
    + left; rewrite (Search_no_base w query Hu); reflexivity.
Qed.

(** ** Upstream results *)

Lemma mapM_toResult_null (number : Type) (items : list (json number)) :
  existsb (@is_null number) items = true ->
  result (mapM (@toResult number) (map (@Some _) items)) = inl TypeError.
Proof.
  induction items as [|r items IH]; simpl; [discriminate|].
  intros H; rewrite result_bind.
  destruct (is_null r) eqn:N.
  - destruct r; try discriminate N; reflexivity.
  - rewrite toResult_not_null by exact N; simpl.
    rewrite result_bind, (IH H); reflexivity.
Qed.

Lemma afterParse_null (number : Type) (w : World number)
    (data : json number) (items : list (json number)) :
  results_array data = Some items ->
  existsb (@is_null number) items = true ->
  result (afterParse w (Some data)) = inl TypeError.
Proof.
  intros Hr Hnull; unfold afterParse.
  rewrite result_bind; cbn [or_throw]; rewrite result_ret, result_bind.
  destruct data; try discriminate Hr; cbn [results_array] in Hr.
  cbn [get]; rewrite result_ret.
  destruct (Json.lookup (js "results") fields) as [[]|];
    try discriminate Hr.
  injection Hr as ->.
  rewrite result_bind; cbn [Array_map].
  rewrite (mapM_toResult_null _ Hnull); reflexivity.
Qed.

(** A [null] among the upstream results makes [Search] end with an
    uncaught [TypeError] (the callback reads [r.title] of it), whatever
    the other results and the limit are. *)
Theorem Search_null_result_throws
    (number : Type) (w : World number) (query : jsstring) (base : Url.t)
    (r : Response) (data : json number) (items : list (json number)) :
  URL_parse w (search_baseURL (config w)) = Some base ->
  net w (target w query base) = Some r ->
  (200 <= status r <= 299)%Z ->
  JSON_parse w (body r) = Some data ->
  results_array data = Some items ->
  existsb (@is_null number) items = true ->
  result (Search w query) = inl TypeError.
Proof.
  intros Hu Hn Hst Hp Hr Hnull; apply ok_true in Hst.
  rewrite (Search_success w query Hu Hn Hst), Hp.
  cbn [result snd]; fold (result (afterParse w (Some data))).
  exact (afterParse_null w data Hr Hnull).
Qed.

(** ** What the normalisation keeps *)

Lemma visible_app a b : visible (a ++ b) = visible a ++ visible b.
Proof. apply filter_app. Qed.

Lemma visible_whitespace s :
  forallb JsString.is_whitespace s = true -> visible s = [].
Proof.
  induction s as [|x s IH]; simpl; [reflexivity|].
  intros H; apply andb_true_iff in H; destruct H as [Hx H].
  rewrite Hx; simpl; exact (IH H).
Qed.

Lemma whitespace_visible s :
  visible s = [] -> forallb JsString.is_whitespace s = true.
Proof.
  induction s as [|x s IH]; simpl; [reflexivity|].
  destruct (JsString.is_whitespace x); simpl; [exact IH | discriminate].
Qed.

Lemma visible_skipn s n :
  forallb JsString.is_whitespace (firstn n s) = true ->
  visible (skipn n s) = visible s.
Proof.
  intros H; rewrite <- (firstn_skipn n s) at 2.
  rewrite visible_app, (visible_whitespace _ H); reflexivity.
Qed.

(** What [\s*] takes is whitespace. *)
Lemma star_whitespace s n :
  RegExp.star JsString.is_whitespace closing s = Some n ->
  forallb JsString.is_whitespace (firstn n s) = true.
Proof.
  revert n; induction s as [|x s IH]; intros n; simpl.
  - rewrite closing_eq; discriminate.
  - rewrite closing_eq.
    destruct (JsString.is_whitespace x) eqn:W.
    + destruct (RegExp.star JsString.is_whitespace closing s) as [m|].
      * intros H; injection H as <-; simpl; rewrite W; apply IH; reflexivity.
      * destruct (JsString.is_newline x); [|discriminate].
        intros H; injection H as <-; simpl; rewrite W; reflexivity.
    + destruct (JsString.is_newline x) eqn:N; [|discriminate].
      apply newline_is_whitespace in N; congruence.
Qed.

Lemma forallb_space_or_tab_whitespace s :
  forallb JsString.is_space_or_tab s = true ->
  forallb JsString.is_whitespace s = true.
Proof.
  induction s as [|x s IH]; simpl; [reflexivity|].
  intros H; apply andb_true_iff in H; destruct H as [Hx H].
  rewrite (space_or_tab_is_whitespace _ Hx), (IH H); reflexivity.
Qed.

Lemma replace_blank_lines_visible s k :
  visible (RegExp.replace_from RegExp.blank_lines [10%N] k s)
  = visible (skipn k s).
Proof.
  revert k; induction s as [|x s IH]; intros [|k];
    cbn [RegExp.replace_from skipn]; try reflexivity; [|apply IH].
  rewrite blank_lines_match.
  destruct (JsString.is_newline x) eqn:N.
  - pose proof (newline_is_whitespace _ N) as W.
    destruct (RegExp.star JsString.is_whitespace closing s) as [n|] eqn:E;
      cbn [option_map].
    + rewrite visible_app, IH, (visible_skipn _ _ (star_whitespace _ E)).
      simpl; rewrite W; reflexivity.
    + simpl; rewrite W; simpl; exact (IH 0).
  - simpl; rewrite (IH 0); reflexivity.
Qed.

Lemma replace_spaces_visible s k :
  forallb JsString.is_space_or_tab (firstn k s) = true ->
  visible (RegExp.replace_from RegExp.spaces_or_tabs [32%N] k s) = visible s.
Proof.
  revert k; induction s as [|x s IH]; intros [|k];
    cbn [RegExp.replace_from]; try reflexivity.
  - intros _; rewrite spaces_or_tabs_match.
    destruct (JsString.is_space_or_tab x) eqn:H.
    + destruct (run_spec s) as (n & E & A & B); rewrite E; cbn [option_map].
      rewrite visible_app, (IH _ A).
      simpl; rewrite (space_or_tab_is_whitespace _ H); reflexivity.
    + simpl; rewrite (IH 0 eq_refl); reflexivity.
  - cbn [firstn forallb]; intros H.
    apply andb_true_iff in H; destruct H as [Hx H].
    rewrite (IH _ H); simpl.
    rewrite (space_or_tab_is_whitespace _ Hx); reflexivity.
Qed.

Lemma drop_while_visible s :
  visible (JsString.drop_while JsString.is_whitespace s) = visible s.
Proof.
  induction s as [|x s IH]; simpl; [reflexivity|].
  destruct (JsString.is_whitespace x) eqn:W; simpl; [exact IH|].
  rewrite W; reflexivity.
Qed.

Lemma visible_rev s : visible (rev s) = rev (visible s).
Proof. apply filter_rev. Qed.

Lemma trim_visible s : visible (JsString.trim s) = visible s.
Proof.
  unfold JsString.trim.
  rewrite visible_rev, drop_while_visible, visible_rev, rev_involutive.
  apply drop_while_visible.
Qed.

(** The normalisation only touches whitespace: the code units of the
    extracted text that are not whitespace are all in the normalised
    text, in the same order, and nothing else is. *)
Lemma cleanText_visible (text : jsstring) :
  visible (cleanText (Some text)) = visible text.
Proof.
  unfold cleanText.
  rewrite trim_visible.
  unfold RegExp.replace_all.
  rewrite (replace_spaces_visible _ 0 eq_refl).
  exact (replace_blank_lines_visible text 0).
Qed.

(** ** Lengths *)

Lemma replace_from_length (p : RegExp.pattern) (r : jsstring) :
  RegExp.match_len p [] = None ->
  (forall s, RegExp.match_len p s <> Some 0) ->
  List.length r <= 1 ->
  forall s k, List.length (RegExp.replace_from p r k s) <= List.length s.
Proof.
  intros Hnil Hpos Hr; induction s as [|x s IH]; intros k.
  - simpl; rewrite Hnil; destruct k; simpl; lia.
  - destruct k as [|k]; cbn [RegExp.replace_from].
    + destruct (RegExp.match_len p (x :: s)) as [[|n]|] eqn:E.
      * elim (Hpos _ E).
      * rewrite length_app; specialize (IH n); simpl; lia.
      * specialize (IH 0); simpl; lia.
    + specialize (IH k); simpl; lia.
Qed.

Lemma trim_length s : List.length (JsString.trim s) <= List.length s.
Proof.
  destruct (trim_split s) as (a & b & E).
  rewrite E at 2; rewrite !length_app; lia.
Qed.

(** The normalised text is never longer than the extracted text. *)
Lemma cleanText_length (text : jsstring) :
  (JsString.length (cleanText (Some text)) <= JsString.length text)%Z.
Proof.
  unfold JsString.length, cleanText, RegExp.replace_all.
  apply Nat2Z.inj_le.
  eapply Nat.le_trans; [apply trim_length|].
  eapply Nat.le_trans.
  - apply replace_from_length; [reflexivity | | simpl; lia].
    intros s; rewrite spaces_or_tabs_match.
    destruct s as [|x s]; [discriminate|].
    destruct (JsString.is_space_or_tab x); [|discriminate].
    destruct (run s); discriminate.
  - apply replace_from_length; [reflexivity | | simpl; lia].
    intros s; rewrite blank_lines_match.
    destruct s as [|x s]; [discriminate|].
    destruct (JsString.is_newline x); [|discriminate].
    destruct (RegExp.star JsString.is_whitespace closing s); discriminate.
Qed.

(** With a positive limit the returned text has at most the limit plus
    the 37 code units of the marker; a text cut at the limit has exactly
    that many, so it is longer than the limit. *)
Theorem limitText_length (L : Z) (text : jsstring) :
  (0 < L)%Z ->
  (JsString.length (limitText L text) <= L + 37)%Z
  /\ ((L < JsString.length text)%Z ->
      JsString.length (limitText L text) = (L + 37)%Z).
Proof.
  intros HL; unfold limitText, JsString.length.
  replace (L >? 0)%Z with true by (symmetry; apply Z.gtb_lt; lia).
  destruct (Z.of_nat (List.length text) >? L)%Z eqn:C; cbn [andb].
  - apply Z.gtb_lt in C.
    unfold JsString.slice0, slice_end.
    replace (L <? 0)%Z with false by (symmetry; apply Z.ltb_ge; lia).
    rewrite Nat.min_l by lia.
    rewrite length_app, length_firstn, Nat.min_l by lia.
    change (List.length truncation_marker) with 37%nat; lia.
  - rewrite Z.gtb_ltb in C; apply Z.ltb_ge in C; lia.
Qed.

(** ** Normalising twice *)

Lemma collapse_blank_lines_fixed s :
  no_blank_gap s = true -> collapse_blank_lines s = s.
Proof.
  unfold collapse_blank_lines, RegExp.replace_all.
  induction s as [|x s IH]; [reflexivity|].
  cbn [no_blank_gap RegExp.replace_from]; intros G.
  apply andb_true_iff in G; destruct G as [Gx G].
  rewrite blank_lines_match.
  destruct (JsString.is_newline x).
  - simpl in Gx; apply negb_true_iff in Gx.
    apply star_reaches in Gx; rewrite Gx; cbn [option_map].
    rewrite (IH G); reflexivity.
  - rewrite (IH G); reflexivity.
Qed.

Lemma run_none s :
  starts_with_space_or_tab s = false -> run s = Some 0.
Proof.
  unfold run; destruct s as [|x s]; [reflexivity|]; simpl.
  intros ->; reflexivity.
Qed.

Lemma collapse_spaces_fixed s :
  no_space_run s = true -> no_tab s = true -> collapse_spaces s = s.
Proof.
  unfold collapse_spaces, RegExp.replace_all, no_tab.
  induction s as [|x s IH]; [reflexivity|].
  cbn [no_space_run forallb RegExp.replace_from]; intros R T.
  apply andb_true_iff in R; destruct R as [Rx R].
  apply andb_true_iff in T; destruct T as [Tx T].
  rewrite spaces_or_tabs_match.
  destruct (JsString.is_space_or_tab x) eqn:H.
  - simpl in Rx; apply negb_true_iff in Rx.
    rewrite (run_none _ Rx); cbn [option_map app].
    rewrite (IH R T); f_equal.
    unfold JsString.is_space_or_tab in H; apply orb_true_iff in H.
    apply negb_true_iff in Tx.
    destruct H as [H | H]; [apply N.eqb_eq in H; auto | congruence].
  - rewrite (IH R T); reflexivity.
Qed.

Lemma drop_while_fixed s :
  starts_with_whitespace s = false ->
  JsString.drop_while JsString.is_whitespace s = s.
Proof. destruct s as [|x s]; simpl; [reflexivity|]; intros ->; reflexivity. Qed.

Lemma trim_fixed s : trimmed s = true -> JsString.trim s = s.
Proof.
  unfold trimmed, JsString.trim; intros T.
  apply andb_true_iff in T; destruct T as [A B].
  apply negb_true_iff in A, B.
  rewrite (drop_while_fixed _ A), (drop_while_fixed _ B).
  apply rev_involutive.
Qed.

Lemma replace_spaces_no_tab s k :
  no_tab (RegExp.replace_from RegExp.spaces_or_tabs [32%N] k s) = true.
Proof.
  unfold no_tab; revert k; induction s as [|x s IH]; intros [|k];
    cbn [RegExp.replace_from]; try reflexivity; [|apply IH].
  rewrite spaces_or_tabs_match.
  destruct (JsString.is_space_or_tab x) eqn:H.
  - destruct (run_spec s) as (n & E & A & B); rewrite E; cbn [option_map].
    simpl; apply IH.
  - simpl; rewrite IH, andb_true_r.
    unfold JsString.is_space_or_tab in H; apply orb_false_iff in H.
    destruct H as [_ H]; rewrite H; reflexivity.
Qed.

Lemma cleanText_no_tab (t : option jsstring) : no_tab (cleanText t) = true.
Proof.
  unfold cleanText.
  set (s2 := RegExp.replace_all RegExp.spaces_or_tabs (js " ") _).
  assert (T : no_tab s2 = true) by apply replace_spaces_no_tab.
  destruct (trim_split s2) as (a & b & E).
  rewrite E in T; unfold no_tab in *.
  rewrite !forallb_app in T.
  apply andb_true_iff in T; destruct T as [_ T].
  apply andb_true_iff in T; destruct T as [T _]; exact T.
Qed.

(** Normalising a normalised text changes nothing. *)
Theorem cleanText_idempotent (t : option jsstring) :
  cleanText (Some (cleanText t)) = cleanText t.
Proof.
  destruct (cleanText_shape t) as (G & R & T).
  pose proof (cleanText_no_tab t) as B.
  set (c := cleanText t) in *.
  unfold cleanText.
  fold (collapse_blank_lines c); rewrite (collapse_blank_lines_fixed _ G).
  change (RegExp.replace_all RegExp.spaces_or_tabs (js " ") c)
    with (collapse_spaces c).
  rewrite (collapse_spaces_fixed _ R B).
  apply trim_fixed; exact T.
Qed.

(** ** Texts of whitespace only *)

Lemma trimmed_whitespace s :
  trimmed s = true -> forallb JsString.is_whitespace s = true -> s = [].
Proof.
  destruct s as [|x s]; [reflexivity|]; unfold trimmed; simpl.
  intros T W; apply andb_true_iff in W; destruct W as [W _].
  rewrite W in T; discriminate T.
Qed.

(** An article whose text is whitespace only, taken without [returnRaw],
    comes back as the structured object with an empty [content]. *)
Theorem whitespace_text_gives_empty_content
    (number : Type) (w : World number) (url : jsstring) (r : Response)
    (a : Article) (text : jsstring) :
  net w url = Some r ->
  (200 <= status r <= 299)%Z ->
  visit_forceRaw (config w) = false ->
  Readability_parse w (body r) = Some a ->
  art_textContent a = Some text ->
  forallb JsString.is_whitespace text = true ->
  exists obj,
    result (Visit w url false) = inr (VisitObject obj)
    /\ content obj = js "".
Proof.
  intros Hn Hst Hf Hp Ht Hw; apply ok_true in Hst.
  rewrite (Visit_extract w url Hn Hst Hf), Hp.
  eexists; split; [reflexivity|]; cbn [content]; rewrite Ht.
  assert (E : cleanText (Some text) = []).
  { destruct (cleanText_shape (Some text)) as (_ & _ & T).
    apply (trimmed_whitespace _ T), whitespace_visible.
    rewrite cleanText_visible; apply visible_whitespace; exact Hw. }
  rewrite E; unfold limitText.
  destruct (visit_maxContentLength (config w)); reflexivity.
Qed.

(** ** The alphabet of an encoded parameter *)

Lemma scalar_values_bound_upto (n : nat) (s : jsstring) :
  List.length s <= n ->
  well_formed s = true ->
  forallb (fun c => N.ltb c 1114112) (Url.scalar_values s) = true.
Proof.
  unfold well_formed; revert s; induction n as [|n IH]; intros s Hl Hw.
  - destruct s; [reflexivity | simpl in Hl; lia].
  - destruct s as [|c s]; [reflexivity|].
    cbn [forallb] in Hw; apply andb_true_iff in Hw; destruct Hw as [Hc Hw].
    apply N.ltb_lt in Hc; simpl in Hl.
    assert (Hs : forallb (fun c => N.ltb c 1114112) (Url.scalar_values s) = true)
      by (apply IH; [lia | exact Hw]).
    cbn [Url.scalar_values].
    destruct (Url.is_high_surrogate c) eqn:Hh.
    + destruct s as [|d s]; [reflexivity|].
      destruct (Url.is_low_surrogate d) eqn:Hd.
      * cbn [forallb] in Hw |- *.
        apply andb_true_iff in Hw; destruct Hw as [_ Hw].
        rewrite (IH s ltac:(simpl in Hl; lia) Hw).
        rewrite andb_true_r; apply N.ltb_lt.
        unfold Url.is_high_surrogate in Hh; unfold Url.is_low_surrogate in Hd.
        apply andb_true_iff in Hh, Hd.
        destruct Hh as [Hh1 Hh2], Hd as [Hd1 Hd2].
        apply N.leb_le in Hh1, Hh2, Hd1, Hd2; lia.
      * cbn [forallb]; rewrite Hs; reflexivity.
    + destruct (Url.is_low_surrogate c); cbn [forallb]; rewrite Hs;
        [reflexivity|].
      rewrite andb_true_r; apply N.ltb_lt; lia.
Qed.

Lemma utf8_encode_bytes (cp : N) :
  (cp < 1114112)%N ->
  forallb (fun b => N.ltb b 256) (Url.utf8_encode cp) = true.
Proof.
  intros H; unfold Url.utf8_encode.
  pose proof (N.mod_upper_bound cp 64 ltac:(discriminate)).
  pose proof (N.mod_upper_bound (cp / 64) 64 ltac:(discriminate)).
  pose proof (N.mod_upper_bound (cp / 4096) 64 ltac:(discriminate)).
  destruct (cp <? 128)%N eqn:A; [apply N.ltb_lt in A|apply N.ltb_ge in A].
  { cbn [forallb]; rewrite andb_true_r; apply N.ltb_lt; lia. }
  destruct (cp <? 2048)%N eqn:B; [apply N.ltb_lt in B|apply N.ltb_ge in B].
  { assert (cp / 64 < 32)%N by (apply N.Div0.div_lt_upper_bound; lia).
    cbn [forallb]; rewrite !andb_true_iff; repeat split; apply N.ltb_lt; lia. }
  destruct (cp <? 65536)%N eqn:C; [apply N.ltb_lt in C|apply N.ltb_ge in C].
  { assert (cp / 4096 < 16)%N by (apply N.Div0.div_lt_upper_bound; lia).
    cbn [forallb]; rewrite !andb_true_iff; repeat split; apply N.ltb_lt; lia. }
  assert (cp / 262144 < 5)%N by (apply N.Div0.div_lt_upper_bound; lia).
  cbn [forallb]; rewrite !andb_true_iff; repeat split; apply N.ltb_lt; lia.
Qed.

Lemma hex_digit_alphanumeric (n : N) :
  (n < 16)%N -> Url.is_ascii_alphanumeric (Url.hex_digit n) = true.
Proof.
  intros H; unfold Url.hex_digit, Url.is_ascii_alphanumeric.
  destruct (n <? 10)%N eqn:A; [apply N.ltb_lt in A|apply N.ltb_ge in A].
  - apply orb_true_iff; left; apply orb_true_iff; left.
    apply andb_true_iff; split; apply N.leb_le; lia.
  - apply orb_true_iff; left; apply orb_true_iff; right.
    apply andb_true_iff; split; apply N.leb_le; lia.
Qed.

Lemma alphanumeric_url_safe (c : N) :
  Url.is_ascii_alphanumeric c = true -> url_safe c = true.
Proof. unfold url_safe; intros ->; reflexivity. Qed.

Lemma urlencoded_byte_safe (b : N) :
  (b < 256)%N -> forallb url_safe (Url.urlencoded_byte b) = true.
Proof.
  intros H; unfold Url.urlencoded_byte.
  destruct (b =? 32)%N; [reflexivity|].
  destruct (Url.is_ascii_alphanumeric b || (b =? 42)%N || (b =? 45)%N
            || (b =? 46)%N || (b =? 95)%N)%bool eqn:U.
  - cbn [forallb]; rewrite andb_true_r; unfold url_safe.
    rewrite U; reflexivity.
  - cbn [forallb].
    rewrite (alphanumeric_url_safe _ (hex_digit_alphanumeric (n := b / 16)
               ltac:(apply N.Div0.div_lt_upper_bound; lia))).
    rewrite (alphanumeric_url_safe _ (hex_digit_alphanumeric (n := b mod 16)
               ltac:(apply N.mod_upper_bound; discriminate))).
    reflexivity.
Qed.

Lemma forallb_flat_map (A B : Type) (P : A -> bool) (Q : B -> bool)
    (f : A -> list B) (l : list A) :
  (forall a, P a = true -> forallb Q (f a) = true) ->
  forallb P l = true -> forallb Q (flat_map f l) = true.
Proof.
  intros Hf; induction l as [|a l IH]; simpl; [reflexivity|].
  intros H; apply andb_true_iff in H; destruct H as [Ha H].
  rewrite forallb_app, (Hf _ Ha), (IH H); reflexivity.
Qed.

(** Whatever a query, an engine name or a language holds, what [Search]
    writes for it into the URL is made of ASCII letters, digits and
    [* - . _ + %] only: a parameter value cannot bring a [&], [=], [#]
    or [?] of its own into the request. *)
Theorem urlencoded_string_safe (s : jsstring) :
  well_formed s = true ->
  forallb url_safe (Url.urlencoded_string s) = true.
Proof.
  intros Hw; unfold Url.urlencoded_string.
  apply (forallb_flat_map (fun b => N.ltb b 256)).
  - intros b Hb; apply urlencoded_byte_safe, N.ltb_lt, Hb.
  - apply (forallb_flat_map (fun c => N.ltb c 1114112)).
    + intros c Hc; apply utf8_encode_bytes, N.ltb_lt, Hc.
    + exact (scalar_values_bound_upto (n := List.length s) s (le_n _) Hw).
Qed.

(** ** The revision of [src/index.ts] *)

Section IndexRuns.

Variable number : Type.
Variable w : World number.

Lemma result_fetch url r : net w url = Some r -> result (fetch w url) = inr r.
Proof. intros H; unfold fetch, bind, emit, or_throw; rewrite H; reflexivity. Qed.

Lemma result_response_json r data :
  JSON_parse w (body r) = Some data -> result (response_json w r) = inr data.
Proof.
  intros H; unfold response_json, bind, emit, or_throw; rewrite H; reflexivity.
Qed.

Lemma Index_toResult_not_null (r : json number) :
  is_null r = false ->
  Index.toResult (Some r) = ([], inr (Index.handed_on r)).
Proof. destruct r; intros H; try discriminate H; reflexivity. Qed.

Lemma Index_mapM_toResult (items : list (json number)) :
  forallb (fun r => negb (is_null r)) items = true ->
  mapM (@Index.toResult number) (map (@Some _) items)
  = ([], inr (map (@Index.handed_on number) items)).
Proof.
  induction items as [|r items IH]; intros H; [reflexivity|].
  simpl in H; apply andb_true_iff in H; destruct H as [Hr H].
  simpl; rewrite Index_toResult_not_null by (now destruct (is_null r)).
  unfold bind at 1; rewrite (IH H); reflexivity.
Qed.

Lemma Index_Visit_extract url r :
  net w url = Some r -> ok r = true ->
  Index.Visit w url false
  = ([Fetch url; ReadText (body r); ParseDocument (body r)],
     inr (Index.cleanText (Readability_parse w (body r)))).
Proof.
  intros Hn Hok;
    unfold Index.Visit, fetch, response_text, readability, bind, emit,
      or_throw, ret.
  rewrite Hn; simpl; rewrite Hok; reflexivity.
Qed.

End IndexRuns.

(** In the revision of [src/index.ts], a page in which the extraction
    finds no article, or an article without text, gives the empty
    string: [Visit] has no failure message for it. *)
Theorem Index_Visit_no_text_gives_empty
    (number : Type) (w : World number) (url : jsstring) (r : Response) :
  net w url = Some r ->
  (200 <= status r <= 299)%Z ->
  Readability_parse w (body r) = None
  \/ (exists a, Readability_parse w (body r) = Some a
                /\ art_textContent a = None) ->
  result (Index.Visit w url false) = inr (js "").
Proof.
  intros Hn Hst Hp; apply ok_true in Hst.
  rewrite (Index_Visit_extract w url Hn Hst).
  destruct Hp as [-> | (a & -> & Ht)]; [reflexivity|].
  unfold Index.cleanText; rewrite Ht; reflexivity.
Qed.

(** In the revision of [src/index.ts], the text [Visit] returns for an
    article has no two consecutive blank lines and no whitespace at
    either end, and its code units that are not whitespace are those of
    the extracted text, in order. *)
Theorem Index_Visit_text_shape
    (number : Type) (w : World number) (url : jsstring) (r : Response)
    (a : Article) (text : jsstring) :
  net w url = Some r ->
  (200 <= status r <= 299)%Z ->
  Readability_parse w (body r) = Some a ->
  art_textContent a = Some text ->
  exists out,
    result (Index.Visit w url false) = inr out
    /\ no_two_blank (lines out) = true
    /\ trimmed out = true
    /\ visible out = visible text.
Proof.
  intros Hn Hst Hp Ht; apply ok_true in Hst.
  rewrite (Index_Visit_extract w url Hn Hst), Hp.
  eexists; split; [reflexivity|].
  unfold Index.cleanText; rewrite Ht.
  set (s1 := RegExp.replace_all RegExp.blank_lines [10%N] text).
  assert (G : no_blank_gap s1 = true) by apply replace_blank_lines_no_gap.
  pose proof (trim_trimmed s1) as T.
  destruct (trim_split s1) as (p & q & E); rewrite E in G.
  apply no_blank_gap_suffix, no_blank_gap_prefix in G.
  repeat split.
  - apply lines_no_two_blank; [exact G|].
    unfold trimmed in T; apply andb_true_iff in T; destruct T as [T _].
    apply negb_true_iff; exact T.
  - exact T.
  - rewrite trim_visible; exact (replace_blank_lines_visible text 0).
Qed.

(** In the revision of [src/index.ts], [Search] hands on the first
    [maxResults] upstream results under the keys [url], [title],
    [content]; with [maxResults] at 0 it hands on none. *)
Theorem Index_Search_hands_on
    (number : Type) (w : World number) (query : jsstring)
    (categories : list jsstring) (base : Url.t) (r : Response)
    (data : json number) (items : list (json number)) :
  URL_parse w (search_baseURL (config w)) = Some base ->
  net w (Index.target w query categories base) = Some r ->
  (200 <= status r <= 299)%Z ->
  JSON_parse w (body r) = Some data ->
  results_array data = Some items ->
  forallb (fun r => negb (is_null r)) items = true ->
  (0 <= search_maxResults (config w))%Z ->
  result (Index.Search w query categories)
  = inr (Index.SearchObject
           (firstn (Z.to_nat (search_maxResults (config w)))
              (map (@Index.handed_on number) items))).
Proof.
  intros Hu Hn Hst Hp Hr Hnn Hpos; apply ok_true in Hst.
  unfold Index.target in Hn; unfold Index.Search, new_URL.
  rewrite Hu; cbn [or_throw].
  rewrite result_bind, result_ret, result_bind, (result_fetch _ _ Hn), Hst.
  cbn [negb].
  rewrite result_bind, (result_response_json _ _ Hp), result_bind.
  destruct data; try discriminate Hr; cbn [results_array] in Hr.
  cbn [get]; rewrite result_ret.
  destruct (Json.lookup (js "results") fields) as [[]|];
    try discriminate Hr.
  injection Hr as ->.
  rewrite result_bind; cbn [Array_map].
  rewrite (Index_mapM_toResult _ Hnn); cbn [result snd].
  rewrite slice0_positive by exact Hpos; reflexivity.
Qed.

(** The two revisions number safe search in opposite directions: for
    every configured value the number of the final revision and the
    number of [src/index.ts] add up to 2 (Moderate is 1 in both; Strict
    and every other value swap 0 and 2). *)
Theorem safeSearch_mirrored (v : jsstring) :
  (safeSearch v + Index.safeSearch v = 2)%Z.
Proof.
  unfold safeSearch, Index.safeSearch.
  destruct (JsString.eqb v (js "Moderate")); [reflexivity|].
  destruct (JsString.eqb v (js "Strict")); reflexivity.
Qed.

(** ** The content of a text that fits the limit *)

(** When the extracted text fits the configured limit, or the limit is
    0, the [content] [Visit] returns differs from the extracted text in
    whitespace only (its other code units are the same, in the same
    order) and is not longer than it. *)
Theorem Visit_keeps_visible
    (number : Type) (w : World number) (url : jsstring) (r : Response)
    (a : Article) (text : jsstring) :
  net w url = Some r ->
  (200 <= status r <= 299)%Z ->
  visit_forceRaw (config w) = false ->
  Readability_parse w (body r) = Some a ->
  art_textContent a = Some text ->
  visit_maxContentLength (config w) = 0%Z
  \/ (JsString.length text <= visit_maxContentLength (config w))%Z ->
  exists obj,
    result (Visit w url false) = inr (VisitObject obj)
    /\ visible (content obj) = visible text
    /\ (JsString.length (content obj) <= JsString.length text)%Z.
Proof.
  intros Hn Hst Hf Hp Ht HL; apply ok_true in Hst.
  rewrite (Visit_extract w url Hn Hst Hf), Hp.
  eexists; split; [reflexivity|]; cbn [content]; rewrite Ht.
  pose proof (cleanText_length text) as Hlen.
  assert (E : limitText (visit_maxContentLength (config w))
                (cleanText (Some text)) = cleanText (Some text)).
  { unfold limitText; destruct HL as [-> | HL]; [reflexivity|].
    replace (JsString.length (cleanText (Some text))
             >? visit_maxContentLength (config w))%Z with false.
    - rewrite andb_false_r; reflexivity.
    - symmetry; rewrite Z.gtb_ltb; apply Z.ltb_ge; lia. }
  rewrite E; split; [apply cleanText_visible | exact Hlen].
Qed.

(** ** The layout of the search URL *)

(** The URL [Search] requests is the base URL up to its query, a [?],
    the parameters the base URL already had followed by [q], [engines],
    [language], [format] and [safesearch] in this order, and then the
    fragment of the base URL, if it has one. *)
Theorem Search_url_layout
    (number : Type) (w : World number) (query : jsstring) (base : Url.t) :
  target w query base
  = Url.head base
      ++ 63%N
      :: Url.urlencoded_serialize
           (Url.params base
              ++ [ (js "q", query);
                   (js "engines", join_comma (search_engines (config w)));
                   (js "language", search_language (config w));
                   (js "format", js "json");
                   (js "safesearch",
                    Number_toString
                      (safeSearch (search_safeSearch (config w)))) ])
      ++ match Url.fragment base with
         | Some f => 35%N :: f
         | None => []
         end.
Proof.
  unfold target; rewrite searchURL_toString, searchURL_params; reflexivity.
Qed.

(** * The further properties at sample environments *)

Lemma Search_caps_results_witness :
  (0 < 1)%Z
  /\ result (Search (sample_world (with_search 1 [js "bing"] default_config)
                       (found two_results_body) (Some two_results) None)
               (js "rocq"))
     = inr (SearchObject
              [{| res_title := None;
                  res_summary := None;
                  res_url := Some (Json.Str (js "http://a.example/")) |}]).
Proof.
  split; [reflexivity|].
  refine (@Search_caps_results Z
            (sample_world (with_search 1 [js "bing"] default_config)
               (found two_results_body) (Some two_results) None)
            (js "rocq")
            (Url.Make (js "http://localhost/search") None [] None)
            (found two_results_body) two_results _
            eq_refl eq_refl _ eq_refl eq_refl eq_refl eq_refl).
  simpl; lia.
Defined.

Lemma Search_null_result_throws_witness :
  existsb (@is_null Z) [Json.Null] = true
  /\ result (Search (sample_world default_config (found null_result_body)
                       (Some null_result) None)
               (js "rocq"))
     = inl TypeError.
Proof.
  split; [reflexivity|].
  refine (@Search_null_result_throws Z
            (sample_world default_config (found null_result_body)
               (Some null_result) None)
            (js "rocq")
            (Url.Make (js "http://localhost/search") None [] None)
            (found null_result_body) null_result [Json.Null]
            eq_refl eq_refl _ eq_refl eq_refl eq_refl).
  simpl; lia.
Defined.

Lemma Search_invalid_base_throws_witness :
  Search no_base_world (js "rocq") = ([], inl TypeError).
Proof.
  exact (@Search_invalid_base_throws Z no_base_world (js "rocq") eq_refl).
Defined.

Lemma rejected_fetch_throws_witness :
  Visit offline_world (js "http://a.example/") false
  = ([Fetch (js "http://a.example/")], inl TypeError)
  /\ result (Search offline_world (js "rocq")) = inl TypeError.
Proof.
  split.
  - exact (proj1 (@rejected_fetch_throws Z offline_world)
             (js "http://a.example/") false eq_refl).
  - exact (f_equal snd
             (proj2 (@rejected_fetch_throws Z offline_world) (js "rocq")
                (Url.Make (js "http://localhost/search") None [] None)
                eq_refl eq_refl)).
Defined.

Lemma Visit_keeps_visible_witness :
  (JsString.length long_text <= 4096)%Z
  /\ exists obj,
       result (Visit (sample_world default_config (found page) None
                        (Some (article_with (Some long_text))))
                 (js "http://a.example/") false)
       = inr (VisitObject obj)
       /\ visible (content obj) = visible long_text
       /\ (JsString.length (content obj) <= JsString.length long_text)%Z.
Proof.
  assert (H : (JsString.length long_text <= 4096)%Z)
    by (vm_compute; discriminate).
  split; [exact H|].
  refine (@Visit_keeps_visible Z
            (sample_world default_config (found page) None
               (Some (article_with (Some long_text))))
            (js "http://a.example/") (found page)
            (article_with (Some long_text)) long_text
            eq_refl _ eq_refl eq_refl eq_refl (or_intror H)).
  simpl; lia.
Defined.

Lemma limitText_length_witness :
  JsString.length (limitText 4 (js "abcdefg")) = (4 + 37)%Z.
Proof.
  refine (proj2 (@limitText_length 4 (js "abcdefg") eq_refl) eq_refl).
Defined.

Lemma whitespace_text_gives_empty_content_witness :
  forallb JsString.is_whitespace [32; 10; 9; 160]%N = true
  /\ exists obj,
       result (Visit (sample_world default_config (found page) None
                        (Some (article_with (Some [32; 10; 9; 160]%N))))
                 (js "http://a.example/") false)
       = inr (VisitObject obj)
       /\ content obj = js "".
Proof.
  split; [reflexivity|].
  refine (@whitespace_text_gives_empty_content Z
            (sample_world default_config (found page) None
               (Some (article_with (Some [32; 10; 9; 160]%N))))
            (js "http://a.example/") (found page)
            (article_with (Some [32; 10; 9; 160]%N)) [32; 10; 9; 160]%N
            eq_refl _ eq_refl eq_refl eq_refl eq_refl).
  simpl; lia.
Defined.

Lemma urlencoded_string_safe_witness :
  well_formed (js "a&b=c #?" ++ [233; 55357; 56832]%N) = true
  /\ forallb url_safe
       (Url.urlencoded_string (js "a&b=c #?" ++ [233; 55357; 56832]%N))
     = true.
Proof.
  split; [reflexivity|].
  exact (@urlencoded_string_safe (js "a&b=c #?" ++ [233; 55357; 56832]%N)
           eq_refl).
Defined.

Lemma Index_Visit_no_text_gives_empty_witness :
  result (Index.Visit (sample_world default_config (found page) None None)
            (js "http://a.example/") false)
  = inr (js "").
Proof.
  refine (@Index_Visit_no_text_gives_empty Z
            (sample_world default_config (found page) None None)
            (js "http://a.example/") (found page) eq_refl _
            (or_introl eq_refl)).
  simpl; lia.
Defined.

Lemma Index_Visit_text_shape_witness :
  exists out,
    result (Index.Visit reading_world (js "http://a.example/") false)
    = inr out
    /\ no_two_blank (lines out) = true
    /\ trimmed out = true
    /\ visible out = visible long_text.
Proof.
  refine (@Index_Visit_text_shape Z reading_world (js "http://a.example/")
            (found page) (article_with (Some long_text)) long_text
            eq_refl _ eq_refl eq_refl).
  simpl; lia.
Defined.

Lemma Index_Search_hands_on_witness :
  result (Index.Search
            (sample_world (with_search 1 [js "bing"] default_config)
               (found two_results_body) (Some two_results) None)
            (js "rocq") [js "general"])
  = inr (Index.SearchObject
           [{| Index.res_url := Some (Json.Str (js "http://a.example/"));
               Index.res_title := None;
               Index.res_content := None |}]).
Proof.
  refine (@Index_Search_hands_on Z
            (sample_world (with_search 1 [js "bing"] default_config)
               (found two_results_body) (Some two_results) None)
            (js "rocq") [js "general"]
            (Url.Make (js "http://localhost/search") None [] None)
            (found two_results_body) two_results _
            eq_refl eq_refl _ eq_refl eq_refl eq_refl _).
  - simpl; lia.
  - simpl; lia.
Defined.

(** ** The two revisions side by side *)

Lemma append_toString (n v : jsstring) (u : Url.t) :
  Url.toString (Url.append n v u)
  = Url.head u
      ++ 63%N :: Url.urlencoded_serialize (Url.params u ++ [(n, v)])
      ++ match Url.fragment u with Some f => 35%N :: f | None => [] end.
Proof.
  unfold Url.toString, Url.append; cbn [Url.head Url.query Url.fragment].
  destruct (Url.urlencoded_serialize (Url.params u ++ [(n, v)])) eqn:E;
    [|reflexivity].
  exfalso; revert E; apply serialize_nonempty.
  intros E; apply app_eq_nil in E; destruct E; discriminate.
Qed.

(** In the revision of [src/index.ts] the URL [Search] requests has the
    same layout with one more parameter: [categories], the given
    categories joined by commas, between [q] and [engines]. *)
Theorem Index_Search_url_layout
    (number : Type) (w : World number) (query : jsstring)
    (categories : list jsstring) (base : Url.t) :
  Index.target w query categories base
  = Url.head base
      ++ 63%N
      :: Url.urlencoded_serialize
           (Url.params base
              ++ [ (js "q", query);
                   (js "categories", join_comma categories);
                   (js "engines", join_comma (search_engines (config w)));
                   (js "language", search_language (config w));
                   (js "format", js "json");
                   (js "safesearch",
                    Number_toString
                      (Index.safeSearch (search_safeSearch (config w)))) ])
      ++ match Url.fragment base with
         | Some f => 35%N :: f
         | None => []
         end.
Proof.
  unfold Index.target, Index.searchURL.
  rewrite append_toString, !append_params, <- !app_assoc; reflexivity.
Qed.

(** A raw read is the same in both revisions: with [returnRaw] true the
    final [Visit] takes the steps of the [Visit] of [src/index.ts] and
    ends as it does, in every environment. *)
Theorem Visit_raw_same_in_both_revisions
    (number : Type) (w : World number) (url : jsstring) :
  trace (Visit w url true) = trace (Index.Visit w url true)
  /\ result (Visit w url true)
     = match result (Index.Visit w url true) with
       | inl e => inl e
       | inr s => inr (VisitText s)
       end.
Proof.
  unfold Visit, Index.Visit, fetch, response_text, bind, emit, or_throw,
    ret, throw.
  destruct (net w url) as [r|]; simpl; [|split; reflexivity].
  destruct (ok r); simpl; split; reflexivity.
Qed.
